(** * ConfirmationStep.svelte: the NFT transfer confirmation orchestrator

    A shallow embedding of the script part of
    [packages/bridge-ui-v2/src/components/Bridge/NFTBridgeSteps/ConfirmationStep.svelte]:
    the component variables, the ambient Svelte stores it reads, the two
    asynchronous entry points [approve] and [bridge], the confirmation handler
    [handleBridgeTxHash] and the two continuations the component attaches to
    promises without awaiting them.

    Conventions of the embedding.
    - A JavaScript [number] or [bigint] holding a chain id, an amount or a
      time is a [Z]; a string is a [string]; [undefined]/[null] is [None].
    - [!x] is [negb (truthy x)], with JavaScript's rules: [0], the empty
      string and [undefined] are falsy, every object and every array is truthy.
    - An [async] function body runs in the monad [M]: component state is
      threaded, every call to a collaborator is written to an effect log, and
      a thrown exception or a rejected awaited promise is a [Throw]
      completion that [try_catch] intercepts.
    - The collaborators ([getConnectedWallet], [getAddress], the bridge
      services, ...) are not part of the component: what each returns is
      supplied by an environment [Env].  An invocation is run to its end;
      at every [await] the environment may rewrite the stores
      ([meanwhile]), as a wallet event or the user can while the function is
      suspended.  An environment that never does so is [quiet].
    - The two promises the component does not await
      ([isBridgePaused().then(..)] and [pendingTransactions.add(..).then(..)])
      become outstanding [Task]s of the state; a later [Settle] event runs the
      attached continuation.  An exception thrown inside such a continuation
      has no handler: it is logged as [E_unhandledRejection]. *)

From Stdlib Require Import ZArith String List Bool Lia.
From stdpp Require Import base option list gmap strings.
Import ListNotations.

Local Open Scope string_scope.
Local Open Scope Z_scope.
Local Open Scope list_scope.

(** ** Values *)

Definition Address := string.
Definition Hash := string.
Definition Wallet := string.

(** JavaScript truthiness, as used by [!x], [x || y], [x && y] and [if (x)]. *)
Class Truthy (A : Type) := truthy : A -> bool.

#[export] Instance truthy_bool : Truthy bool := fun b => b.
#[export] Instance truthy_Z : Truthy Z := fun n => negb (n =? 0).
#[export] Instance truthy_string : Truthy string :=
  fun s => match s with EmptyString => false | String _ _ => true end.
#[export] Instance truthy_option {A} `{Truthy A} : Truthy (option A) :=
  fun o => match o with Some a => truthy a | None => false end.
(** An array is an object: [[]] is truthy. *)
#[export] Instance truthy_array {A} : Truthy (list A) := fun _ => true.

(** [BigInt(n)] on an integral number. *)
Definition BigInt (n : Z) : Z := n.

(** [enum TokenType] of [$libs/token]. *)
Inductive TokenType := ETH | ERC20 | ERC721 | ERC1155.

#[export] Instance TokenType_eq_dec : EqDecision TokenType.
Proof. solve_decision. Defined.

(** [enum MessageStatus] of [$libs/bridge]. *)
Inductive MessageStatus := NEW | RETRIABLE | DONE | FAILED.

(** The errors the component can see.  [BridgePausedError] is the class of
    [$libs/error]; [JsError msg] is [new Error(msg)]; [TypeError] is what
    reading a property of [undefined] throws; [Upstream] is any error of a
    collaborator. *)
Inductive Error :=
| BridgePausedError (msg : string)
| JsError (msg : string)
| TypeError (what : string)
| Upstream (tag : string).

(** The error kinds of the specification, as the component raises them. *)
Definition BridgePaused : Error := BridgePausedError "Bridge is paused".
Definition TokenIdsNotFound : Error := JsError "tokenIds not found".
Definition AddressNotFound (e : Error) : Prop :=
  e = JsError "cross chain address not found" \/ e = JsError "token address not found".

(** What a call to a collaborator gives: a value, or an exception (a
    synchronous throw or the rejection of the awaited promise). *)
Definition Outcome (A : Type) : Type := Error + A.

(** A localized text: a literal, or the call [$t(key, { values })]. *)
Inductive Text :=
| Lit (s : string)
| T (key : string) (values : list (string * string)).

Module Token.
Record t := mk {
  type : TokenType;
  symbol : string;
  decimals : Z;
  addresses : gmap Z Address
}.
End Token.
Abbreviation Token := Token.t.

Record NFT := { tokenId : Z }.
Record Chain := { id : Z }.
Record Account := { address : option Address }.
(** The bound bridge service [$bridgeService]; only its identity matters. *)
Record BridgeService := { serviceOf : TokenType }.

#[export] Instance truthy_Token : Truthy Token := fun _ => true.
#[export] Instance truthy_Chain : Truthy Chain := fun _ => true.
#[export] Instance truthy_Account : Truthy Account := fun _ => true.
#[export] Instance truthy_BridgeService : Truthy BridgeService := fun _ => true.

(** An entry of [routingContractsMap[src][dst]]. *)
Record RoutingContracts := {
  erc721VaultAddress : Address;
  erc1155VaultAddress : Address
}.

(** [NFTApproveArgs]. [tokenIds] is [tokenIds!]: the value is passed as it is. *)
Record NFTApproveArgs := {
  tokenIds : option (list Z);
  tokenAddress : Address;
  spenderAddress : Address;
  wallet : Wallet
}.

(** [commonArgs] of [bridge]. *)
Record CommonArgs := {
  to : option Address;
  c_wallet : Wallet;
  c_srcChainId : Z;
  c_destChainId : option Z;
  fee : Z
}.

(** The bundle [getBridgeArgs] builds is opaque to the component. *)
Definition Bundle := string.

(** [{ ...bridgeArgs, tokenIds }]. *)
Record BridgeArgs := {
  bridgeArgs : Bundle;
  b_tokenIds : list Z
}.

(** [BridgeTransaction], the persisted record. *)
Record BridgeTransaction := {
  hash : Hash;
  from : option Address;
  amount : Z;
  symbol : option string;
  decimals : option Z;
  srcChainId : Z;
  destChainId : Z;
  tokenType : option TokenType;
  status : MessageStatus;
  timestamp : Z
}.

(** ** Ambient stores, component variables, configuration *)

(** The Svelte stores the component reads with [$store]. *)
Record Stores := {
  account : option Account;
  network : option Chain;
  destNetwork : option Chain;
  bridgeService : option BridgeService;
  enteredAmount : Z;
  processingFee : Z;
  recipientAddress : option Address;
  selectedNFTs : option (list NFT);
  selectedToken : option Token;
  allApproved : bool
}.

Inductive BridgingStatus := pending | done.

#[export] Instance BridgingStatus_eq_dec : EqDecision BridgingStatus.
Proof. solve_decision. Defined.

(** The variables declared by the component (lines 41-49). *)
Record Component := {
  bridgingStatus : BridgingStatus;
  bridgeTxHash : option Hash;
  approveTxHash : option Hash;
  bridging : bool;
  approving : bool;
  statusTitle : Text;
  statusDescription : Text
}.

(** What the continuation of [pendingTransactions.add(..).then(..)] closes
    over: the constants of [handleBridgeTxHash]. *)
Record Closure := {
  k_txHash : Hash;
  k_currentChain : Z;
  k_destinationChain : Z;
  k_userAccount : Address;
  k_explorer : string
}.

(** A promise the component attached a continuation to and did not await. *)
Inductive Task :=
| PausedThen
| ConfirmedThen (k : Closure).

Record State := {
  stores : Stores;
  comp : Component;
  tasks : list Task;
  clock : Z
}.

(** Every observable action of the component on its collaborators. *)
Inductive Effect :=
| E_isBridgePaused
| E_getConnectedWallet (chainId : Z)
| E_getAddress (a : option Address)
| E_getCrossChainAddress (token : option Token) (src dst : Z)
| E_approve (type : TokenType) (args : NFTApproveArgs)
| E_infoToast (title message : Text)
| E_successToast (title message : Text)
| E_pendingTransactions_add (h : option Hash) (chainId : Z)
| E_getTokenApprovalStatus (token : option Token)
| E_getBridgeArgs (token : option Token) (amount : Z) (args : CommonArgs) (ids : list Z)
| E_bridge (service : BridgeService) (args : BridgeArgs)
| E_addTxByAddress (a : Address) (tx : BridgeTransaction)
| E_consoleError (e : Error)
| E_handleBridgeError (e : Error)
| E_unhandledRejection (e : Error).

(** The imported tables and the collaborators. *)
Record ChainConf := { explorer : string }.

Record Env := {
  routingContractsMap : gmap Z (gmap Z RoutingContracts);
  chainConfig : gmap Z ChainConf;
  getConnectedWallet : Z -> Outcome Wallet;
  getAddress : option Address -> Outcome (option Address);
  getCrossChainAddress : option Token -> Z -> Z -> Outcome (option Address);
  bridges_approve : TokenType -> NFTApproveArgs -> Outcome (option Hash);
  approvalConfirmed : option Hash -> Z -> Outcome unit;
  getTokenApprovalStatus : option Token -> Outcome unit;
  getBridgeArgs : option Token -> Z -> CommonArgs -> list Z -> Outcome Bundle;
  bridgeService_bridge : BridgeService -> BridgeArgs -> Outcome (option Hash);
  (** what happens to the stores while the component awaits a call *)
  meanwhile : Effect -> Stores -> Stores
}.

(** Nobody writes the stores while the component is suspended. *)
Definition quiet (env : Env) : Prop :=
  forall e st, meanwhile env e st = st.

(** ** The monad of a function body *)

Inductive Completion (A : Type) :=
| Normal (a : A)
| Throw (e : Error).
Arguments Normal {A} a.
Arguments Throw {A} e.

Definition M (A : Type) : Type := State -> Completion A * State * list Effect.

Definition ret {A} (a : A) : M A := fun s => (Normal a, s, []).

Definition bind {A B} (m : M A) (f : A -> M B) : M B :=
  fun s =>
    match m s with
    | (Normal a, s1, fx1) =>
        match f a s1 with (r, s2, fx2) => (r, s2, fx1 ++ fx2) end
    | (Throw e, s1, fx1) => (Throw e, s1, fx1)
    end.

Notation "'let*' x ':=' c 'in' k" := (bind c (fun x => k))
  (at level 10, x name, c at level 100, k at level 200).
Notation "c '>>' k" := (bind c (fun _ => k))
  (at level 100, k at level 200, right associativity).

Definition throw {A} (e : Error) : M A := fun s => (Throw e, s, []).

(** [try { body } catch (err) { handler(err) }]. *)
Definition try_catch {A} (body : M A) (handler : Error -> M A) : M A :=
  fun s =>
    match body s with
    | (Normal a, s1, fx1) => (Normal a, s1, fx1)
    | (Throw e, s1, fx1) =>
        match handler e s1 with (r, s2, fx2) => (r, s2, fx1 ++ fx2) end
    end.

Definition emit (e : Effect) : M unit := fun s => (Normal tt, s, [e]).

Definition with_stores (f : Stores -> Stores) (s : State) : State :=
  {| stores := f (stores s); comp := comp s; tasks := tasks s; clock := clock s |}.

Definition with_comp (f : Component -> Component) (s : State) : State :=
  {| stores := stores s; comp := f (comp s); tasks := tasks s; clock := clock s |}.

Definition with_tasks (f : list Task -> list Task) (s : State) : State :=
  {| stores := stores s; comp := comp s; tasks := f (tasks s); clock := clock s |}.

(** Reading a store: [$store]. *)
Definition read {A} (f : Stores -> A) : M A := fun s => (Normal (f (stores s)), s, []).

(** [Date.now()]. *)
Definition now : M Z := fun s => (Normal (clock s), s, []).

(** Assigning a component variable. *)
Definition update (f : Component -> Component) : M unit :=
  fun s => (Normal tt, with_comp f s, []).

(** [promise.then(k)] without [await]: the continuation is left outstanding. *)
Definition attach (k : Task) : M unit :=
  fun s => (Normal tt, with_tasks (fun ts => ts ++ [k]) s, []).

(** [await f(..)]: the call is made, the function is suspended while the
    environment goes on, and resumes with the value or the exception. *)
Definition await {A} (env : Env) (e : Effect) (o : Outcome A) : M A :=
  emit e >>
  (fun s => (Normal tt, with_stores (meanwhile env e) s, [])) >>
  match o with
  | inr a => ret a
  | inl err => throw err
  end.

(** [x.f] where [x] may be [undefined]. *)
Definition prop {A} (what : string) (x : option A) : M A :=
  match x with
  | Some a => ret a
  | None => throw (TypeError what)
  end.

(** [$store.f]: the store is read, then dereferenced. *)
Definition deref {A} (what : string) (f : Stores -> option A) : M A :=
  let* x := read f in prop what x.

Definition set_bridgingStatus (v : BridgingStatus) (c : Component) : Component :=
  {| bridgingStatus := v; bridgeTxHash := bridgeTxHash c;
     approveTxHash := approveTxHash c; bridging := bridging c;
     approving := approving c; statusTitle := statusTitle c;
     statusDescription := statusDescription c |}.

Definition set_bridgeTxHash (v : option Hash) (c : Component) : Component :=
  {| bridgingStatus := bridgingStatus c; bridgeTxHash := v;
     approveTxHash := approveTxHash c; bridging := bridging c;
     approving := approving c; statusTitle := statusTitle c;
     statusDescription := statusDescription c |}.

Definition set_approveTxHash (v : option Hash) (c : Component) : Component :=
  {| bridgingStatus := bridgingStatus c; bridgeTxHash := bridgeTxHash c;
     approveTxHash := v; bridging := bridging c;
     approving := approving c; statusTitle := statusTitle c;
     statusDescription := statusDescription c |}.

Definition set_bridging (v : bool) (c : Component) : Component :=
  {| bridgingStatus := bridgingStatus c; bridgeTxHash := bridgeTxHash c;
     approveTxHash := approveTxHash c; bridging := v;
     approving := approving c; statusTitle := statusTitle c;
     statusDescription := statusDescription c |}.

Definition set_statusTitle (v : Text) (c : Component) : Component :=
  {| bridgingStatus := bridgingStatus c; bridgeTxHash := bridgeTxHash c;
     approveTxHash := approveTxHash c; bridging := bridging c;
     approving := approving c; statusTitle := v;
     statusDescription := statusDescription c |}.

Definition set_statusDescription (v : Text) (c : Component) : Component :=
  {| bridgingStatus := bridgingStatus c; bridgeTxHash := bridgeTxHash c;
     approveTxHash := approveTxHash c; bridging := bridging c;
     approving := approving c; statusTitle := statusTitle c;
     statusDescription := v |}.

(** ** The component *)

(** [`${explorer}/tx/${txHash}`]. *)
Definition txUrl (explorer : string) (txHash : Hash) : string :=
  (explorer ++ "/tx/" ++ txHash)%string.

(** The object literal of lines 72-83, with the values its fields read. *)
Definition bridgeTx (k : Closure) (acct : Account) (st : Stores) (time : Z)
  : BridgeTransaction :=
  {| hash := k_txHash k;
     from := address acct;
     amount := enteredAmount st;
     symbol := Token.symbol <$> selectedToken st;
     decimals := Token.decimals <$> selectedToken st;
     srcChainId := BigInt (k_currentChain k);
     destChainId := BigInt (k_destinationChain k);
     tokenType := Token.type <$> selectedToken st;
     status := NEW;
     timestamp := time |}.

(** The continuation of line 66, [() => { ... }] (lines 67-86).  It reads
    [$account], [$enteredAmount] and [$selectedToken] when it runs. *)
Definition onConfirmed (k : Closure) : M unit :=
  update (set_bridgingStatus done) >>
  update (set_statusTitle (T "bridge.actions.bridge.success.title" [])) >>
  update (set_statusDescription
            (T "bridge.nft.step.confirm.bridge.success.message"
               [("url", txUrl (k_explorer k) (k_txHash k))])) >>
  let* acct := deref "$account" account in
  let* st := read (fun st => st) in
  let* time := now in
  let tx := bridgeTx k acct st time in
  update (set_bridging false) >>
  emit (E_addTxByAddress (k_userAccount k) tx).

(** The condition of line 56 on the three constants of lines 52-55. *)
Definition unresolvable (st : Stores) : bool :=
  negb (truthy (id <$> network st))
  || negb (truthy (id <$> destNetwork st))
  || negb (truthy (account st ≫= address)).

(** Lines 51-88. *)
Definition handleBridgeTxHash (env : Env) (txHash : Hash) : M unit :=
  let* currentChain := read (fun st => id <$> network st) in
  let* destinationChain := read (fun st => id <$> destNetwork st) in
  let* userAccount := read (fun st => account st ≫= address) in
  if negb (truthy currentChain) || negb (truthy destinationChain)
     || negb (truthy userAccount)
  then ret tt
  else
    match currentChain, destinationChain, userAccount with
    | Some currentChain, Some destinationChain, Some userAccount =>
        let* conf := prop "chainConfig[currentChain]" (chainConfig env !! currentChain) in
        let explorer := explorer conf in
        update (set_statusTitle (T "bridge.actions.bridge.tx.title" [])) >>
        update (set_statusDescription
                  (T "bridge.actions.bridge.tx.message" [("url", txUrl explorer txHash)])) >>
        emit (E_pendingTransactions_add (Some txHash) currentChain) >>
        attach (ConfirmedThen
                  {| k_txHash := txHash; k_currentChain := currentChain;
                     k_destinationChain := destinationChain;
                     k_userAccount := userAccount; k_explorer := explorer |})
    | _, _, _ => ret tt
    end.

(** [routingContractsMap[$network.id][$destNetwork?.id]]. *)
Definition routingContracts (env : Env) : M RoutingContracts :=
  let* net := deref "$network" network in
  let* dest := read (fun st => id <$> destNetwork st) in
  let* byDest := prop "routingContractsMap[$network.id]" (routingContractsMap env !! id net) in
  prop "routingContractsMap[$network.id][$destNetwork?.id]" (dest ≫= (fun d => byDest !! d)).

(** The continuation of line 91, [(paused) => { if (paused) throw ... }]. *)
Definition onPaused (paused : bool) : M unit :=
  if paused then throw (BridgePausedError "Bridge is paused") else ret tt.

(** The condition of line 96. *)
Definition approve_absent (st : Stores) : bool :=
  negb (truthy (selectedToken st))
  || negb (truthy (network st))
  || negb (truthy (id <$> destNetwork st)).

(** The [catch] block of [approve] (lines 148-151). *)
Definition approve_catch (err : Error) : M unit :=
  emit (E_consoleError err) >>
  emit (E_handleBridgeError err).

(** The [try] block of [approve] (lines 96-147). *)
Definition approve_try (env : Env) : M unit :=
  let* absent := read approve_absent in
  if absent then ret tt
  else
    let* token := deref "$selectedToken" selectedToken in
    let type := Token.type token in
    let* net := deref "$network" network in
    let* walletClient := await env (E_getConnectedWallet (id net)) (getConnectedWallet env (id net)) in
    let* token := deref "$selectedToken" selectedToken in
    let* net := deref "$network" network in
    let onSource := Token.addresses token !! id net in
    let* tokenAddress := await env (E_getAddress onSource) (getAddress env onSource) in
    let* tokenAddress :=
      if negb (truthy tokenAddress)
      then
        let* token := read selectedToken in
        let* net := deref "$network" network in
        let* dest := deref "$destNetwork" destNetwork in
        let* crossChainAddress :=
          await env (E_getCrossChainAddress token (id net) (id dest))
                (getCrossChainAddress env token (id net) (id dest)) in
        if negb (truthy crossChainAddress)
        then throw (JsError "cross chain address not found")
        else ret crossChainAddress
      else ret tokenAddress in
    if negb (truthy tokenAddress)
    then throw (JsError "token address not found")
    else
      let tokenAddress := default "" tokenAddress in
      let* nfts := read selectedNFTs in
      let tokenIds := map (fun nft => BigInt (tokenId nft)) <$> nfts in
      let* spenderAddress :=
        if decide (type = ERC1155)
        then let* rc := routingContracts env in ret (erc1155VaultAddress rc)
        else let* rc := routingContracts env in ret (erc721VaultAddress rc) in
      let args := {| tokenIds := tokenIds; tokenAddress := tokenAddress;
                     spenderAddress := spenderAddress; wallet := walletClient |} in
      let* txHash := await env (E_approve type args) (bridges_approve env type args) in
      update (set_approveTxHash txHash) >>
      let* net := deref "$network" network in
      let* conf := prop "chainConfig[$network.id]" (chainConfig env !! id net) in
      let explorer := explorer conf in
      (if truthy txHash
       then
         let* token := deref "$selectedToken" selectedToken in
         emit (E_infoToast
                 (T "bridge.actions.approve.tx.title" [])
                 (T "bridge.actions.approve.tx.message"
                    [("token", Token.symbol token);
                     ("url", txUrl explorer (default "" txHash))]))
       else ret tt) >>
      let* net := deref "$network" network in
      await env (E_pendingTransactions_add txHash (id net))
            (approvalConfirmed env txHash (id net)) >>
      let* token := read selectedToken in
      await env (E_getTokenApprovalStatus token) (getTokenApprovalStatus env token) >>
      let* token := deref "$selectedToken" selectedToken in
      emit (E_successToast
              (T "bridge.actions.approve.success.title" [])
              (T "bridge.actions.approve.success.message"
                 [("token", Token.symbol token)])).

(** Lines 90-152. *)
Definition approve (env : Env) : M unit :=
  emit E_isBridgePaused >>
  attach PausedThen >>
  try_catch (approve_try env) approve_catch.

(** The condition of line 155. *)
Definition bridge_absent (st : Stores) : bool :=
  negb (truthy (bridgeService st))
  || negb (truthy (selectedToken st))
  || negb (truthy (network st))
  || negb (truthy (id <$> destNetwork st))
  || negb (truthy (account st ≫= address)).

(** The [catch] block of [bridge] (lines 179-183). *)
Definition bridge_catch (err : Error) : M unit :=
  update (set_bridging false) >>
  emit (E_consoleError err) >>
  emit (E_handleBridgeError err).

(** The [try] block of [bridge] (lines 158-178). *)
Definition bridge_try (env : Env) : M unit :=
  let* net := deref "$network" network in
  let* walletClient := await env (E_getConnectedWallet (id net)) (getConnectedWallet env (id net)) in
  let* recipient := read recipientAddress in
  let* to :=
    if truthy recipient then ret recipient
    else let* acct := deref "$account" account in ret (address acct) in
  let* net := deref "$network" network in
  let* dest := read (fun st => id <$> destNetwork st) in
  let* fee := read processingFee in
  let commonArgs :=
    {| to := to; c_wallet := walletClient; c_srcChainId := id net;
       c_destChainId := dest; fee := fee |} in
  let* nfts := read selectedNFTs in
  let tokenIds := map (fun nft => tokenId nft) <$> nfts in
  if negb (truthy tokenIds)
  then throw (JsError "tokenIds not found")
  else
    let tokenIds := default [] tokenIds in
    let* token := read selectedToken in
    let* amount := read enteredAmount in
    let* built :=
      await env (E_getBridgeArgs token amount commonArgs tokenIds)
            (getBridgeArgs env token amount commonArgs tokenIds) in
    let args := {| bridgeArgs := built; b_tokenIds := tokenIds |} in
    let* service := deref "$bridgeService" bridgeService in
    let* txHash := await env (E_bridge service args) (bridgeService_bridge env service args) in
    update (set_bridgeTxHash txHash) >>
    if truthy txHash
    then handleBridgeTxHash env (default "" txHash)
    else ret tt.

(** Lines 154-184. *)
Definition bridge (env : Env) : M unit :=
  let* absent := read bridge_absent in
  if absent then ret tt
  else
    update (set_bridging true) >>
    try_catch (bridge_try env) bridge_catch.

(** ** Events: invocations and settlements *)

(** How a promise settles: fulfilled (for [isBridgePaused()] with the
    [paused] flag, which the confirmation continuation ignores) or rejected. *)
Definition Settlement := Outcome bool.

(** The continuation attached to an outstanding promise, run on settlement.
    Neither [.then] has a rejection handler: a rejection passes through. *)
Definition continuation (t : Task) (o : Settlement) : M unit :=
  match o with
  | inl err => throw err
  | inr v =>
      match t with
      | PausedThen => onPaused v
      | ConfirmedThen k => onConfirmed k
      end
  end.

(** Running a job of the event loop to its end.  Nothing is above it to catch
    an exception: it surfaces as an unhandled rejection. *)
Definition job (m : M unit) (s : State) : State * list Effect :=
  match m s with
  | (Normal _, s', fx) => (s', fx)
  | (Throw e, s', fx) => (s', fx ++ [E_unhandledRejection e])
  end.

Inductive Event :=
| Invoke_approve (env : Env)
| Invoke_bridge (env : Env)
| Settle (n : nat) (o : Settlement)
| StoresChange (st : Stores)
| Tick (d : Z).

(** One turn of the event loop.  A settled promise is settled for good: its
    continuation leaves the outstanding tasks. *)
Definition step (e : Event) (s : State) : State * list Effect :=
  match e with
  | Invoke_approve env => job (approve env) s
  | Invoke_bridge env => job (bridge env) s
  | Settle n o =>
      match tasks s !! n with
      | Some t => job (continuation t o) (with_tasks (delete n) s)
      | None => (s, [])
      end
  | StoresChange st => (with_stores (fun _ => st) s, [])
  | Tick d =>
      ({| stores := stores s; comp := comp s; tasks := tasks s;
          clock := clock s + d |}, [])
  end.

Fixpoint run (evs : list Event) (s : State) : State * list Effect :=
  match evs with
  | [] => (s, [])
  | e :: evs' =>
      let '(s1, fx1) := step e s in
      let '(s2, fx2) := run evs' s1 in
      (s2, fx1 ++ fx2)
  end.

(** The component as mounted: lines 41-49. *)
Definition mounted : Component :=
  {| bridgingStatus := pending; bridgeTxHash := None; approveTxHash := None;
     bridging := false; approving := false;
     statusTitle := Lit "Success!"; statusDescription := Lit "" |}.

Definition init (st : Stores) (time : Z) : State :=
  {| stores := st; comp := mounted; tasks := []; clock := time |}.

(** ** Observations on an effect log *)

(** The records handed to [bridgeTxService.addTxByAddress], in order. *)
Fixpoint persisted (fx : list Effect) : list (Address * BridgeTransaction) :=
  match fx with
  | [] => []
  | E_addTxByAddress a tx :: fx' => (a, tx) :: persisted fx'
  | _ :: fx' => persisted fx'
  end.

(** The transactions submitted for signing: approvals and bridge calls. *)
Definition is_submission (e : Effect) : bool :=
  match e with
  | E_approve _ _ | E_bridge _ _ => true
  | _ => false
  end.

Fixpoint submissions (fx : list Effect) : list Effect :=
  match fx with
  | [] => []
  | e :: fx' => if is_submission e then e :: submissions fx' else submissions fx'
  end.

(** The errors written with [console.error]. *)
Fixpoint logged (fx : list Effect) : list Error :=
  match fx with
  | [] => []
  | E_consoleError e :: fx' => e :: logged fx'
  | _ :: fx' => logged fx'
  end.

(** The errors forwarded to [handleBridgeError]. *)
Fixpoint handled (fx : list Effect) : list Error :=
  match fx with
  | [] => []
  | E_handleBridgeError e :: fx' => e :: handled fx'
  | _ :: fx' => handled fx'
  end.

(** The errors that escaped every handler. *)
Fixpoint unhandled (fx : list Effect) : list Error :=
  match fx with
  | [] => []
  | E_unhandledRejection e :: fx' => e :: unhandled fx'
  | _ :: fx' => unhandled fx'
  end.

(** The calls to [$bridgeService.bridge], in order. *)
Fixpoint bridged (fx : list Effect) : list (BridgeService * BridgeArgs) :=
  match fx with
  | [] => []
  | E_bridge service args :: fx' => (service, args) :: bridged fx'
  | _ :: fx' => bridged fx'
  end.

(** The outstanding confirmation continuations. *)
Fixpoint confirmations (ts : list Task) : list Closure :=
  match ts with
  | [] => []
  | ConfirmedThen k :: ts' => k :: confirmations ts'
  | PausedThen :: ts' => confirmations ts'
  end.



Definition is_bridge_invocation (e : Event) : bool :=
  match e with
  | Invoke_bridge _ => true
  | _ => false
  end.

(** ** A concrete scenario

    The happy path of the specification: an approved ERC721 token, one NFT
    with id 42, source chain 1, destination chain 10. *)

Definition alice : Address := "0xA11CE".

Definition vaults : RoutingContracts :=
  {| erc721VaultAddress := "0xVault721"; erc1155VaultAddress := "0xVault1155" |}.

Definition token_of (ty : TokenType) : Token :=
  Token.mk ty "APE" 0 {[ 1 := "0x1234567890123456789012345678901234567890" ]}.

Definition stores_of (ty : TokenType) (nfts : option (list NFT)) : Stores :=
  {| account := Some {| address := Some alice |};
     network := Some {| id := 1 |};
     destNetwork := Some {| id := 10 |};
     bridgeService := Some {| serviceOf := ty |};
     enteredAmount := 1;
     processingFee := 0;
     recipientAddress := None;
     selectedNFTs := nfts;
     selectedToken := Some (token_of ty);
     allApproved := true |}.

Definition happy_stores : Stores := stores_of ERC721 (Some [ {| tokenId := 42 |} ]).

(** [getAddress] of viem (line 4), which is not part of the repository: it
    throws [InvalidAddressError] unless its argument is [0x] followed by 40
    hexadecimal digits, and returns a well-formed address in checksummed
    form.  It never returns a falsy value.  The checksum only changes the
    case of letters: on an address without letters, as the one of the
    scenario, it is the identity, which is what [getAddress_viem] returns
    for every well-formed address. *)
Definition InvalidAddressError : Error := Upstream "InvalidAddressError".

Definition is_hex_digit (c : Ascii.ascii) : bool :=
  let n := Ascii.nat_of_ascii c in
  ((48 <=? n) && (n <=? 57) || (65 <=? n) && (n <=? 70) || (97 <=? n) && (n <=? 102))%nat.

Definition isAddress (a : string) : bool :=
  String.prefix "0x" a
  && (String.length a =? 42)%nat
  && forallb is_hex_digit (list_ascii_of_string (substring 2 40 a)).

Definition getAddress_viem (a : option Address) : Outcome (option Address) :=
  match a with
  | Some x => if isAddress x then inr (Some x) else inl InvalidAddressError
  | None => inl InvalidAddressError
  end.

(** Collaborators that all succeed on the addresses of the scenario. *)
Definition happy_env : Env :=
  {| routingContractsMap := {[ 1 := {[ 10 := vaults ]} ]};
     chainConfig := {[ 1 := {| explorer := "https://scan" |} ]};
     getConnectedWallet := fun _ => inr "wallet";
     getAddress := getAddress_viem;
     getCrossChainAddress := fun _ _ _ => inr None;
     bridges_approve := fun _ _ => inr (Some "0xAPPROVE");
     approvalConfirmed := fun _ _ => inr tt;
     getTokenApprovalStatus := fun _ => inr tt;
     getBridgeArgs := fun _ _ _ _ => inr "bundle";
     bridgeService_bridge := fun _ _ => inr (Some "0xBRIDGE");
     meanwhile := fun _ st => st |}.

Definition without_token (st : Stores) : Stores :=
  {| account := account st; network := network st; destNetwork := destNetwork st;
     bridgeService := bridgeService st; enteredAmount := enteredAmount st;
     processingFee := processingFee st; recipientAddress := recipientAddress st;
     selectedNFTs := selectedNFTs st; selectedToken := None;
     allApproved := allApproved st |}.

Definition without_network (st : Stores) : Stores :=
  {| account := account st; network := None; destNetwork := destNetwork st;
     bridgeService := bridgeService st; enteredAmount := enteredAmount st;
     processingFee := processingFee st; recipientAddress := recipientAddress st;
     selectedNFTs := selectedNFTs st; selectedToken := selectedToken st;
     allApproved := allApproved st |}.

Definition on_chain (n : Z) (st : Stores) : Stores :=
  {| account := account st; network := Some {| id := n |};
     destNetwork := destNetwork st;
     bridgeService := bridgeService st; enteredAmount := enteredAmount st;
     processingFee := processingFee st; recipientAddress := recipientAddress st;
     selectedNFTs := selectedNFTs st; selectedToken := selectedToken st;
     allApproved := allApproved st |}.

(** The wallet is disconnected while the bridge transaction is being signed. *)
Definition disconnecting_env : Env :=
  {| routingContractsMap := routingContractsMap happy_env;
     chainConfig := chainConfig happy_env;
     getConnectedWallet := getConnectedWallet happy_env;
     getAddress := getAddress happy_env;
     getCrossChainAddress := getCrossChainAddress happy_env;
     bridges_approve := bridges_approve happy_env;
     approvalConfirmed := approvalConfirmed happy_env;
     getTokenApprovalStatus := getTokenApprovalStatus happy_env;
     getBridgeArgs := getBridgeArgs happy_env;
     bridgeService_bridge := bridgeService_bridge happy_env;
     meanwhile := fun e st =>
                    match e with
                    | E_bridge _ _ => without_network st
                    | _ => st
                    end |}.

(** The user rejects the request in the wallet. *)
Definition rejecting_env : Env :=
  {| routingContractsMap := routingContractsMap happy_env;
     chainConfig := chainConfig happy_env;
     getConnectedWallet := fun _ => inl (Upstream "user rejected the request");
     getAddress := getAddress happy_env;
     getCrossChainAddress := getCrossChainAddress happy_env;
     bridges_approve := bridges_approve happy_env;
     approvalConfirmed := approvalConfirmed happy_env;
     getTokenApprovalStatus := getTokenApprovalStatus happy_env;
     getBridgeArgs := getBridgeArgs happy_env;
     bridgeService_bridge := bridgeService_bridge happy_env;
     meanwhile := meanwhile happy_env |}.

(** The continuation the happy path leaves outstanding. *)
Definition happy_closure : Closure :=
  {| k_txHash := "0xBRIDGE"; k_currentChain := 1; k_destinationChain := 10;
     k_userAccount := alice; k_explorer := "https://scan" |}.




(** ** The template (lines 190-228) *)

(** What a panel of the [txStatus] section shows above its text. *)
Inductive Visual :=
| IconOf (type : string)
| SpinnerOf.

Record Panel := {
  visual : Visual;
  heading : Text;
  body : Text
}.

(** Lines 185-187: [`approve-${$theme}`], [`bridge-${$theme}`],
    [`success-${$theme}`]. *)
Definition iconType (name theme : string) : string :=
  (name ++ "-" ++ theme)%string.

(** The [{#if}] chain of lines 193-219.  It has no [{:else}] branch: [None]
    is an empty section. *)
Definition txStatus (theme : string) (s : State) : option Panel :=
  if decide (bridgingStatus (comp s) = done)
  then Some {| visual := IconOf (iconType "success" theme);
               heading := statusTitle (comp s);
               body := statusDescription (comp s) |}
  else if negb (truthy (allApproved (stores s))) && negb (truthy (approving (comp s)))
  then Some {| visual := IconOf (iconType "approve" theme);
               heading := T "bridge.nft.step.confirm.approve.title" [];
               body := T "bridge.nft.step.confirm.approve.description" [] |}
  else if truthy (bridging (comp s)) || truthy (approving (comp s))
  then Some {| visual := SpinnerOf;
               heading := T "bridge.nft.step.confirm.processing" [];
               body := T "bridge.nft.step.confirm.approve.pending" [] |}
  else if truthy (allApproved (stores s)) && negb (truthy (approving (comp s)))
          && negb (truthy (bridging (comp s)))
  then Some {| visual := IconOf (iconType "bridge" theme);
               heading := T "bridge.nft.step.confirm.approved.title" [];
               body := T "bridge.nft.step.confirm.approved.description" [] |}
  else None.

(** Lines 222-227: the [Actions] child, which holds the buttons bound to
    [approve] and [bridge], is rendered unless [bridgingStatus] is ['done']. *)
Definition actions (s : State) : bool :=
  negb (bool_decide (bridgingStatus (comp s) = done)).

(** The bridge service resolves without a hash. *)
Definition hashless_env : Env :=
  {| routingContractsMap := routingContractsMap happy_env;
     chainConfig := chainConfig happy_env;
     getConnectedWallet := getConnectedWallet happy_env;
     getAddress := getAddress happy_env;
     getCrossChainAddress := getCrossChainAddress happy_env;
     bridges_approve := fun _ _ => inr None;
     approvalConfirmed := approvalConfirmed happy_env;
     getTokenApprovalStatus := getTokenApprovalStatus happy_env;
     getBridgeArgs := getBridgeArgs happy_env;
     bridgeService_bridge := fun _ _ => inr None;
     meanwhile := meanwhile happy_env |}.

(** No chain is configured. *)
Definition unconfigured_env : Env :=
  {| routingContractsMap := routingContractsMap happy_env;
     chainConfig := ∅;
     getConnectedWallet := getConnectedWallet happy_env;
     getAddress := getAddress happy_env;
     getCrossChainAddress := getCrossChainAddress happy_env;
     bridges_approve := bridges_approve happy_env;
     approvalConfirmed := approvalConfirmed happy_env;
     getTokenApprovalStatus := getTokenApprovalStatus happy_env;
     getBridgeArgs := getBridgeArgs happy_env;
     bridgeService_bridge := bridgeService_bridge happy_env;
     meanwhile := meanwhile happy_env |}.

(** The happy path with an explicit recipient. *)
Definition bob : Address := "0xB0B".

Definition to_bob (st : Stores) : Stores :=
  {| account := account st; network := network st; destNetwork := destNetwork st;
     bridgeService := bridgeService st; enteredAmount := enteredAmount st;
     processingFee := processingFee st; recipientAddress := Some bob;
     selectedNFTs := selectedNFTs st; selectedToken := selectedToken st;
     allApproved := allApproved st |}.

(** The account store is cleared. *)
Definition without_account (st : Stores) : Stores :=
  {| account := None; network := network st; destNetwork := destNetwork st;
     bridgeService := bridgeService st; enteredAmount := enteredAmount st;
     processingFee := processingFee st; recipientAddress := recipientAddress st;
     selectedNFTs := selectedNFTs st; selectedToken := selectedToken st;
     allApproved := allApproved st |}.

(** * Proofs *)

(** ** Symbolic execution of a body *)

Ltac unfold_m :=
  unfold approve, approve_try, approve_catch, bridge, bridge_try, bridge_catch,
    handleBridgeTxHash, routingContracts, onConfirmed, onPaused, continuation,
    await, deref, prop, read, now, update, attach, emit, throw, ret,
    try_catch, bind in *.

Ltac unfold_truthy :=
  repeat (progress unfold truthy, truthy_option, truthy_bool, truthy_Z, truthy_string,
    truthy_array, truthy_Token, truthy_Chain, truthy_Account, truthy_BridgeService in *).

(** Case analysis on the innermost scrutinee that is not itself a [match]:
    the body is followed in the order in which it runs. *)
Ltac destruct_inner :=
  match goal with
  | |- context [match ?x with _ => _ end] =>
      lazymatch x with
      | context [match _ with _ => _ end] => fail
      | _ => destruct x eqn:?
      end
  end.

(** Rewriting with the equations the case analysis has left. *)
Ltac rewrite_known :=
  repeat match goal with
         | H : ?l = _ |- context [?l] => rewrite H
         end.

(** Symbolic execution of a body in any environment. *)
Ltac exec_goal :=
  unfold_m; unfold_truthy; simpl;
  repeat (destruct_inner; simpl; unfold_truthy).

Ltac in_list := simpl; repeat (first [left; reflexivity | right]).

(** Rewriting with what is known of the stores. *)
Ltac rewrite_reads :=
  repeat match goal with
         | H : ?f (stores ?s) = ?r |- context [?f (stores ?s)] =>
             lazymatch r with
             | context [stores s] => fail
             | _ => rewrite H
             end
         end.

(** Symbolic execution against an environment that leaves the stores alone. *)
Ltac exec_quiet Hq :=
  unfold_m; unfold with_stores; unfold_truthy; simpl;
  repeat (rewrite ?Hq; rewrite_reads; simpl; destruct_inner; simpl; unfold_truthy);
  rewrite ?Hq; rewrite_reads; simpl.

(** Case analysis on which effect of a log is meant. *)
Ltac split_effects :=
  repeat match goal with
         | H : False |- _ => destruct H
         | H : _ \/ _ |- _ => destruct H
         | H : In _ (_ ++ _) |- _ => apply in_app_or in H
         | H : In _ [] |- _ => destruct H
         | H : In _ (_ :: _) |- _ => destruct H
         end.

(** Rewriting the goal with every equation on a store that is at hand. *)
Ltac rewrite_hyps_reads :=
  repeat match goal with
         | H : ?f (stores ?s) = _ |- context [?f (stores ?s)] => rewrite H
         end.

(** ** Effect logs, tasks and the entry points *)

Lemma persisted_app fx1 fx2 : persisted (fx1 ++ fx2) = persisted fx1 ++ persisted fx2.
Proof.
  induction fx1 as [|e fx1 IH]; [reflexivity|].
  destruct e; simpl; rewrite ?IH; reflexivity.
Qed.

Lemma logged_app fx1 fx2 : logged (fx1 ++ fx2) = logged fx1 ++ logged fx2.
Proof.
  induction fx1 as [|e fx1 IH]; [reflexivity|].
  destruct e; simpl; rewrite ?IH; reflexivity.
Qed.

Lemma handled_app fx1 fx2 : handled (fx1 ++ fx2) = handled fx1 ++ handled fx2.
Proof.
  induction fx1 as [|e fx1 IH]; [reflexivity|].
  destruct e; simpl; rewrite ?IH; reflexivity.
Qed.

Lemma unhandled_app fx1 fx2 : unhandled (fx1 ++ fx2) = unhandled fx1 ++ unhandled fx2.
Proof.
  induction fx1 as [|e fx1 IH]; [reflexivity|].
  destruct e; simpl; rewrite ?IH; reflexivity.
Qed.

Lemma bridged_app fx1 fx2 : bridged (fx1 ++ fx2) = bridged fx1 ++ bridged fx2.
Proof.
  induction fx1 as [|e fx1 IH]; [reflexivity|].
  destruct e; simpl; rewrite ?IH; reflexivity.
Qed.

Lemma submissions_app fx1 fx2 :
  submissions (fx1 ++ fx2) = submissions fx1 ++ submissions fx2.
Proof.
  induction fx1 as [|e fx1 IH]; [reflexivity|].
  simpl. destruct (is_submission e); simpl; rewrite IH; reflexivity.
Qed.

Lemma confirmations_app ts1 ts2 :
  confirmations (ts1 ++ ts2) = confirmations ts1 ++ confirmations ts2.
Proof.
  induction ts1 as [|t ts1 IH]; [reflexivity|].
  destruct t; simpl; rewrite ?IH; reflexivity.
Qed.

(** Settling the [n]-th task removes one confirmation exactly when that task
    is a confirmation. *)
Lemma confirmations_delete (ts : list Task) (n : nat) (t : Task) :
  ts !! n = Some t ->
  length (confirmations ts)
  = (length (confirmations (delete n ts))
     + match t with ConfirmedThen _ => 1 | PausedThen => 0 end)%nat.
Proof.
  revert n. induction ts as [|t' ts IH]; intros n Hn; [done|].
  destruct n as [|n]; simpl in *.
  - injection Hn as ->. destruct t; simpl; lia.
  - specialize (IH n Hn). destruct t'; simpl; lia.
Qed.

Lemma bridge_try_frame env s :
  match bridge_try env s with
  | (r, s1, fx1) =>
      persisted fx1 = [] /\ logged fx1 = [] /\ handled fx1 = [] /\ unhandled fx1 = []
      /\ bridgingStatus (comp s1) = bridgingStatus (comp s)
      /\ bridging (comp s1) = bridging (comp s)
      /\ approving (comp s1) = approving (comp s)
      /\ clock s1 = clock s
      /\ (tasks s1 = tasks s
          \/ exists k service args,
               r = Normal tt
               /\ tasks s1 = tasks s ++ [ConfirmedThen k]
               /\ bridged fx1 = [(service, args)]
               /\ bridgeService_bridge env service args = inr (Some (k_txHash k))
               /\ bridgeTxHash (comp s1) = Some (k_txHash k)
               /\ id <$> network (stores s1) = Some (k_currentChain k)
               /\ id <$> destNetwork (stores s1) = Some (k_destinationChain k)
               /\ (account (stores s1) ≫= address) = Some (k_userAccount k)
               /\ In (E_pendingTransactions_add (Some (k_txHash k)) (k_currentChain k)) fx1)
      /\ (forall e, r = Throw e -> tasks s1 = tasks s)
  end.
Proof.
  exec_goal; repeat split; try done; try (left; done).
  all: right; eexists _, _, _; simpl; repeat split; try done; in_list.
Qed.

(** The branch of line 56: the hash was obtained, the handler gives up. *)
Lemma bridge_try_aborted env s service args h :
  match bridge_try env s with
  | (r, s1, fx1) =>
      In (E_bridge service args) fx1 ->
      bridgeService_bridge env service args = inr (Some h) ->
      truthy h = true ->
      unresolvable (stores s1) = true ->
      r = Normal tt
      /\ tasks s1 = tasks s
      /\ bridgeTxHash (comp s1) = Some h
      /\ statusTitle (comp s1) = statusTitle (comp s)
      /\ statusDescription (comp s1) = statusDescription (comp s)
      /\ (forall h' c, ~ In (E_pendingTransactions_add h' c) fx1)
  end.
Proof.
  unfold unresolvable.
  exec_goal; intros Hin Hsvc Hh Hun; simpl in Hin;
    try (exfalso; intuition congruence).
  all: repeat match goal with
         | H : _ \/ _ |- _ => destruct H
         | H : E_bridge _ _ = E_bridge _ _ |- _ => injection H as <- <-
         end; simplify_eq; simpl in *; unfold_truthy; simplify_eq.
  all: try (rewrite_known; simpl; done).
  all: repeat split; try done; try congruence.
  all: try (intros h' c' Hc; simpl in Hc; intuition discriminate).
Qed.

(** The other branch of line 56: the hash was obtained, the handler goes on. *)
Lemma bridge_try_registers env s service args h :
  match bridge_try env s with
  | (r, s1, fx1) =>
      In (E_bridge service args) fx1 ->
      bridgeService_bridge env service args = inr (Some h) ->
      truthy h = true ->
      unresolvable (stores s1) = false ->
      r = Normal tt ->
      exists k,
        k_txHash k = h
        /\ tasks s1 = tasks s ++ [ConfirmedThen k]
  end.
Proof.
  unfold unresolvable.
  exec_goal; intros Hin Hsvc Hh Hun Hr; simpl in Hin;
    try discriminate Hr; try (exfalso; intuition congruence).
  all: repeat match goal with
         | H : False |- _ => destruct H
         | H : _ \/ _ |- _ => destruct H
         | H : E_bridge _ _ = E_bridge _ _ |- _ => injection H as <- <-
         end; simplify_eq; simpl in *; unfold_truthy; simplify_eq.
  all: try (exfalso; congruence).
  all: try (eexists; split; [|reflexivity]; simpl; congruence).
  all: exfalso; revert Hun; clear; intros Hun;
    repeat match goal with
           | H : context [?a =? ?b] |- _ => destruct (a =? b)
           end; simpl in Hun; discriminate.
Qed.

Lemma approve_try_frame env s :
  match approve_try env s with
  | (r, s1, fx1) =>
      persisted fx1 = [] /\ logged fx1 = [] /\ handled fx1 = [] /\ unhandled fx1 = []
      /\ bridged fx1 = []
      /\ bridgingStatus (comp s1) = bridgingStatus (comp s)
      /\ bridging (comp s1) = bridging (comp s)
      /\ approving (comp s1) = approving (comp s)
      /\ bridgeTxHash (comp s1) = bridgeTxHash (comp s)
      /\ statusTitle (comp s1) = statusTitle (comp s)
      /\ statusDescription (comp s1) = statusDescription (comp s)
      /\ tasks s1 = tasks s
      /\ clock s1 = clock s
  end.
Proof. exec_goal; repeat split; done. Qed.

(** [approve] always completes normally: whatever its [try] block throws is
    caught, logged and forwarded. *)
Lemma approve_frame env s :
  exists s1 fx1,
    approve env s = (Normal tt, s1, fx1)
    /\ persisted fx1 = [] /\ unhandled fx1 = [] /\ bridged fx1 = []
    /\ logged fx1 = handled fx1
    /\ bridgingStatus (comp s1) = bridgingStatus (comp s)
    /\ bridging (comp s1) = bridging (comp s)
    /\ approving (comp s1) = approving (comp s)
    /\ bridgeTxHash (comp s1) = bridgeTxHash (comp s)
    /\ statusTitle (comp s1) = statusTitle (comp s)
    /\ statusDescription (comp s1) = statusDescription (comp s)
    /\ tasks s1 = tasks s ++ [PausedThen]
    /\ clock s1 = clock s.
Proof.
  unfold approve, bind, emit, attach, try_catch. simpl.
  pose proof (approve_try_frame env (with_tasks (fun ts => ts ++ [PausedThen]) s)) as H.
  destruct (approve_try env _) as [[r s1] fx1].
  destruct H as (Hp & Hl & Hh & Hu & Hb & H1 & H2 & H3 & H4 & H5 & H6 & Ht & Hc).
  destruct r as [[]|e]; simpl.
  - eexists _, _. split; [reflexivity|]. simpl. rewrite Hl, Hh. repeat split; done.
  - eexists _, _. split; [reflexivity|]. simpl.
    rewrite persisted_app, unhandled_app, bridged_app, logged_app, handled_app.
    rewrite Hp, Hl, Hh, Hu, Hb. simpl. repeat split; done.
Qed.

(** [bridge] always completes normally, and writes only the flag, the hash
    and the status text. *)
Lemma bridge_frame env s :
  exists s1 fx1,
    bridge env s = (Normal tt, s1, fx1)
    /\ persisted fx1 = [] /\ unhandled fx1 = []
    /\ logged fx1 = handled fx1
    /\ bridgingStatus (comp s1) = bridgingStatus (comp s)
    /\ approving (comp s1) = approving (comp s)
    /\ clock s1 = clock s
    /\ (tasks s1 = tasks s
        \/ exists k service args,
             tasks s1 = tasks s ++ [ConfirmedThen k]
             /\ bridged fx1 = [(service, args)]
             /\ bridgeService_bridge env service args = inr (Some (k_txHash k))
             /\ bridgeTxHash (comp s1) = Some (k_txHash k)
             /\ id <$> network (stores s1) = Some (k_currentChain k)
             /\ id <$> destNetwork (stores s1) = Some (k_destinationChain k)
             /\ (account (stores s1) ≫= address) = Some (k_userAccount k)
             /\ In (E_pendingTransactions_add (Some (k_txHash k)) (k_currentChain k)) fx1).
Proof.
  unfold bridge, bind, read, try_catch, update, ret. simpl.
  destruct (bridge_absent (stores s)).
  { eexists _, _. split; [reflexivity|]. simpl. tauto. }
  simpl.
  pose proof (bridge_try_frame env (with_comp (set_bridging true) s)) as H.
  destruct (bridge_try env _) as [[r s1] fx1].
  destruct H as (Hp & Hl & Hh & Hu & Hst & Hbg & Hap & Hc & Ht & Hthrow).
  destruct r as [[]|e]; simpl.
  - eexists _, _. split; [reflexivity|]. simpl. rewrite Hl, Hh. repeat split; try done.
    destruct Ht as [Ht|(k & sv & ar & _ & Ht)]; [by left|].
    right. by eexists _, _, _.
  - unfold bridge_catch, bind, update, emit. simpl.
    eexists _, _. split; [reflexivity|]. simpl.
    rewrite persisted_app, unhandled_app, logged_app, handled_app.
    rewrite Hp, Hl, Hh, Hu. simpl. repeat split; try done.
    left. by eapply Hthrow.
Qed.

(** The confirmation continuation, when the account store is defined. *)
Lemma settle_confirmed s n v k acct :
  tasks s !! n = Some (ConfirmedThen k) ->
  account (stores s) = Some acct ->
  exists s1,
    step (Settle n (inr v)) s
    = (s1, [E_addTxByAddress (k_userAccount k) (bridgeTx k acct (stores s) (clock s))])
    /\ bridgingStatus (comp s1) = done
    /\ bridging (comp s1) = false
    /\ tasks s1 = delete n (tasks s)
    /\ stores s1 = stores s
    /\ clock s1 = clock s.
Proof.
  intros Ht Ha. unfold step. rewrite Ht. unfold job, continuation.
  unfold_m. simpl. rewrite Ha. simpl.
  eexists. split; [reflexivity|]. simpl. done.
Qed.

(** One turn of the event loop. *)
Lemma step_frame e s :
  match step e s with
  | (s1, fx1) =>
      (length (persisted fx1) + length (confirmations (tasks s1))
       <= length (bridged fx1) + length (confirmations (tasks s)))%nat
      /\ (bridgingStatus (comp s1) = bridgingStatus (comp s)
          \/ bridgingStatus (comp s1) = done
             /\ exists n v k, e = Settle n (inr v) /\ tasks s !! n = Some (ConfirmedThen k))
      /\ (persisted fx1 = []
          \/ exists n v k, e = Settle n (inr v) /\ tasks s !! n = Some (ConfirmedThen k))
      /\ (is_bridge_invocation e = false ->
          confirmations (tasks s) = [] ->
          confirmations (tasks s1) = []
          /\ bridging (comp s1) = bridging (comp s)
          /\ bridgingStatus (comp s1) = bridgingStatus (comp s)
          /\ persisted fx1 = [])
  end.
Proof.
  destruct e as [env|env|n o|st|d]; simpl.
  - destruct (approve_frame env s) as (s1 & fx1 & Heq & Hp & Hu & Hb & _ & Hst & Hbg & _ & _ & _ & _ & Ht & _).
    unfold job. rewrite Heq. rewrite Hp, Hb, Ht, confirmations_app. simpl.
    rewrite app_nil_r. repeat split; auto.
  - destruct (bridge_frame env s) as (s1 & fx1 & Heq & Hp & Hu & _ & Hst & _ & _ & Ht).
    unfold job. rewrite Heq. rewrite Hp. simpl. repeat split; auto; try done.
    destruct Ht as [->|(k & sv & ar & -> & -> & _)]; [lia|].
    rewrite confirmations_app, length_app. simpl. lia.
  - destruct (tasks s !! n) as [t|] eqn:Ht; simpl; [|repeat split; auto].
    pose proof (confirmations_delete _ _ _ Ht) as Hlen.
    assert (Hnone : confirmations (tasks s) = [] ->
                    confirmations (delete n (tasks s)) = []
                    /\ match t with ConfirmedThen _ => False | PausedThen => True end).
    { intros Hnil. rewrite Hnil in Hlen. simpl in Hlen.
      destruct (confirmations (delete n (tasks s))); simpl in Hlen; [|lia].
      destruct t; [done|lia]. }
    destruct o as [err|v]; [|destruct t as [|k]].
    + unfold job, continuation, throw. simpl.
      split; [destruct t; lia|]. split; [by left|]. split; [by left|].
      intros _ Hnil. apply Hnone in Hnil as [? _]. done.
    + unfold job, continuation, onPaused, throw, ret.
      destruct v; simpl.
      all: split; [lia|]; split; [by left|]; split; [by left|].
      all: intros _ Hnil; apply Hnone in Hnil as [? _]; done.
    + unfold job, continuation. unfold_m. simpl.
      destruct (account (stores s)) as [acct|]; simpl.
      all: split; [lia|]; split; [right; eauto 10|]; split; [right; eauto 10|].
      all: intros _ Hnil; apply Hnone in Hnil as [_ []].
  - repeat split; auto.
  - repeat split; auto.
Qed.

Lemma run_app evs1 evs2 s :
  run (evs1 ++ evs2) s
  = (fst (run evs2 (fst (run evs1 s))),
     snd (run evs1 s) ++ snd (run evs2 (fst (run evs1 s)))).
Proof.
  revert s. induction evs1 as [|e evs1 IH]; intros s; simpl.
  - by destruct (run evs2 s).
  - destruct (step e s) as [s1 fx1]. rewrite IH.
    destruct (run evs1 s1) as [s2 fx2]. simpl.
    destruct (run evs2 s2) as [s3 fx3]. simpl. by rewrite app_assoc.
Qed.

(** Records and outstanding confirmations never outnumber the bridge
    transactions submitted so far. *)
Lemma run_bound evs s :
  (length (persisted (snd (run evs s))) + length (confirmations (tasks (fst (run evs s))))
   <= length (bridged (snd (run evs s))) + length (confirmations (tasks s)))%nat.
Proof.
  revert s. induction evs as [|e evs IH]; intros s; simpl; [lia|].
  pose proof (step_frame e s) as Hs.
  destruct (step e s) as [s1 fx1]. destruct Hs as (Hb & _).
  specialize (IH s1). destruct (run evs s1) as [s2 fx2]. simpl in *.
  rewrite persisted_app, bridged_app, !length_app. lia.
Qed.

(** Once [done], always [done]. *)
Lemma step_done e s :
  bridgingStatus (comp s) = done ->
  bridgingStatus (comp (fst (step e s))) = done.
Proof.
  intros Hd. pose proof (step_frame e s) as Hs.
  destruct (step e s) as [s1 fx1]. destruct Hs as (_ & [Hs|[Hs _]] & _); simpl; congruence.
Qed.


(** With no confirmation outstanding, only a new [bridge] call can touch the
    flag, the status or the history store. *)
Lemma run_idle evs s :
  forallb (fun e => negb (is_bridge_invocation e)) evs = true ->
  confirmations (tasks s) = [] ->
  bridging (comp (fst (run evs s))) = bridging (comp s)
  /\ bridgingStatus (comp (fst (run evs s))) = bridgingStatus (comp s)
  /\ persisted (snd (run evs s)) = [].
Proof.
  revert s. induction evs as [|e evs IH]; intros s Hall Hnil; simpl; [done|].
  simpl in Hall. apply andb_true_iff in Hall as [He Hall].
  apply negb_true_iff in He.
  pose proof (step_frame e s) as Hs.
  destruct (step e s) as [s1 fx1]. destruct Hs as (_ & _ & _ & Hs).
  destruct (Hs He Hnil) as (Hnil1 & Hb & Hst & Hp).
  destruct (IH s1 Hall Hnil1) as (IHb & IHst & IHp).
  destruct (run evs s1) as [s2 fx2]. simpl in *.
  rewrite persisted_app, Hp, IHp. repeat split; congruence.
Qed.

(** The branch of line 56. *)
Lemma handler_gives_up env h s :
  unresolvable (stores s) = true ->
  handleBridgeTxHash env h s = (Normal tt, s, []).
Proof.
  unfold unresolvable, handleBridgeTxHash, bind, read, ret. simpl.
  intros ->. reflexivity.
Qed.

Lemma bridge_without_token_ids_run (env : Env) (s : State) :
  quiet env ->
  bridge_absent (stores s) = false ->
  selectedNFTs (stores s) = None ->
  match bridge env s with
  | (r, s1, fx1) =>
      bridging (comp s1) = false
      /\ submissions fx1 = []
      /\ persisted fx1 = []
      /\ tasks s1 = tasks s
      /\ exists err,
           logged fx1 = [err]
           /\ handled fx1 = [err]
           /\ (forall net w,
                 network (stores s) = Some net ->
                 getConnectedWallet env (id net) = inr w ->
                 err = TokenIdsNotFound)
  end.
Proof.
  intros Hq Hg Hn.
  unfold bridge. unfold bind at 1, read at 1. simpl. rewrite Hg.
  unfold bridge_absent in Hg. revert Hg.
  exec_quiet Hq.
  all: intros Hg; try discriminate Hg.
  all: try (rewrite Hn in *; simpl in *; discriminate).
  all: try (exfalso; revert Hg; clear; intros Hg;
            repeat match goal with
                   | H : context [?a =? ?b] |- _ => destruct (a =? b)
                   end; simpl in *; discriminate).
  all: repeat split; try done.
  all: eexists; repeat split; try reflexivity.
  all: intros; simplify_eq; try reflexivity; congruence.
Qed.



(** The happy environment never writes the stores. *)
Lemma happy_env_quiet : quiet happy_env.
Proof. intros e st. reflexivity. Defined.

(** * The claims *)

(** C1.  The confirmation continuation reads [$account.address] (line 73)
    without the guard that line 55 has, before it clears [bridging] (line 84)
    and hands the record to the history store (line 86).  On the happy path,
    when the account store is emptied between the submission and the
    confirmation, the [bridge()] call is successful (the transaction is
    submitted, its hash is handed to the tracker, nothing is logged) and the
    confirmation is observed ([bridgingStatus] is [done]), yet no record is
    persisted: the read throws, the error is an unhandled rejection,
    [bridging] stays [true], and no continuation is left that could persist
    the record later.  With the account still defined the same call is
    recorded once. *)
Theorem confirmed_bridge_without_account_is_not_recorded :
  bridged (snd (step (Invoke_bridge happy_env) (init happy_stores 0)))
  = [({| serviceOf := ERC721 |}, {| bridgeArgs := "bundle"; b_tokenIds := [42] |})]
  /\ logged (snd (step (Invoke_bridge happy_env) (init happy_stores 0))) = []
  /\ tasks (fst (step (Invoke_bridge happy_env) (init happy_stores 0)))
     = [ConfirmedThen happy_closure]
  /\ persisted (snd (run [Invoke_bridge happy_env;
                          StoresChange (without_account happy_stores);
                          Settle 0 (inr true)]
                         (init happy_stores 0))) = []
  /\ unhandled (snd (run [Invoke_bridge happy_env;
                          StoresChange (without_account happy_stores);
                          Settle 0 (inr true)]
                         (init happy_stores 0))) = [TypeError "$account"]
  /\ bridgingStatus (comp (fst (run [Invoke_bridge happy_env;
                                     StoresChange (without_account happy_stores);
                                     Settle 0 (inr true)]
                                    (init happy_stores 0)))) = done
  /\ bridging (comp (fst (run [Invoke_bridge happy_env;
                               StoresChange (without_account happy_stores);
                               Settle 0 (inr true)]
                              (init happy_stores 0)))) = true
  /\ tasks (fst (run [Invoke_bridge happy_env;
                      StoresChange (without_account happy_stores);
                      Settle 0 (inr true)]
                     (init happy_stores 0))) = []
  /\ length (persisted (snd (run [Invoke_bridge happy_env; Settle 0 (inr true)]
                                 (init happy_stores 0)))) = 1%nat.
Proof.
  repeat split; vm_compute; reflexivity.
Qed.

(** C2 as stated fails: with the empty selection [[]] the test [!tokenIds]
    of line 168 is false (an array is truthy); nothing is thrown, the bridge
    transaction is submitted with no token id and [bridging] stays [true]. *)
Lemma empty_selection_is_submitted :
  bridge_absent (stores_of ERC721 (Some [])) = false
  /\ logged (snd (step (Invoke_bridge happy_env) (init (stores_of ERC721 (Some [])) 0))) = []
  /\ bridged (snd (step (Invoke_bridge happy_env) (init (stores_of ERC721 (Some [])) 0)))
     = [({| serviceOf := ERC721 |}, {| bridgeArgs := "bundle"; b_tokenIds := [] |})]
  /\ bridging (comp (fst (step (Invoke_bridge happy_env)
                               (init (stores_of ERC721 (Some [])) 0)))) = true.
Proof. repeat split; reflexivity. Qed.

(** C2, as amended.  With the guard of line 155 passed and no NFT selection
    at all ([$selectedNFTs] is [null]), [bridge()] fails: [bridging] is reset
    to [false], nothing is submitted, registered or persisted, and one error
    is logged and forwarded, which is "tokenIds not found" whenever the
    signing handle was obtained. *)
Theorem bridge_without_token_ids (env : Env) (s : State) :
  quiet env ->
  bridge_absent (stores s) = false ->
  selectedNFTs (stores s) = None ->
  bridging (comp (fst (step (Invoke_bridge env) s))) = false
  /\ submissions (snd (step (Invoke_bridge env) s)) = []
  /\ persisted (snd (step (Invoke_bridge env) s)) = []
  /\ tasks (fst (step (Invoke_bridge env) s)) = tasks s
  /\ exists err,
       logged (snd (step (Invoke_bridge env) s)) = [err]
       /\ handled (snd (step (Invoke_bridge env) s)) = [err]
       /\ (forall net w,
             network (stores s) = Some net ->
             getConnectedWallet env (id net) = inr w ->
             err = TokenIdsNotFound).
Proof.
  intros Hq Hg Hn.
  pose proof (bridge_without_token_ids_run env s Hq Hg Hn) as H.
  destruct (bridge_frame env s) as (s1 & fx1 & Heq & _).
  assert (Hstep : step (Invoke_bridge env) s = (s1, fx1))
    by (simpl; unfold job; by rewrite Heq).
  rewrite Heq in H. rewrite Hstep. exact H.
Qed.

(** The happy path without a selection. *)
Lemma bridge_without_token_ids_witness :
  quiet happy_env
  /\ bridge_absent (stores (init (stores_of ERC721 None) 0)) = false
  /\ selectedNFTs (stores (init (stores_of ERC721 None) 0)) = None
  /\ bridging (comp (fst (step (Invoke_bridge happy_env) (init (stores_of ERC721 None) 0))))
     = false
  /\ submissions (snd (step (Invoke_bridge happy_env) (init (stores_of ERC721 None) 0)))
     = [].
Proof.
  destruct (bridge_without_token_ids happy_env (init (stores_of ERC721 None) 0)
              happy_env_quiet eq_refl eq_refl)
    as (Hb & Hs & _).
  split; [exact happy_env_quiet|]. split; [reflexivity|]. split; [reflexivity|].
  split; [exact Hb|exact Hs].
Defined.

(** C3.  The continuation [approve] attaches to [isBridgePaused()] is outside
    the [try] block and is not awaited: when the oracle reports "paused" the
    [BridgePausedError] it throws is an unhandled rejection.  It is neither
    written to the console nor forwarded to [handleBridgeError], and on the
    happy path the approval is submitted all the same. *)
Theorem paused_error_escapes_approve (env : Env) (s : State) :
  tasks (fst (step (Invoke_approve env) s)) !! length (tasks s) = Some PausedThen
  /\ snd (step (Settle (length (tasks s)) (inr true)) (fst (step (Invoke_approve env) s)))
     = [E_unhandledRejection BridgePaused]
  /\ logged (snd (run [Invoke_approve happy_env; Settle 0 (inr true)]
                      (init happy_stores 0))) = []
  /\ handled (snd (run [Invoke_approve happy_env; Settle 0 (inr true)]
                       (init happy_stores 0))) = []
  /\ unhandled (snd (run [Invoke_approve happy_env; Settle 0 (inr true)]
                         (init happy_stores 0))) = [BridgePaused]
  /\ submissions (snd (run [Invoke_approve happy_env; Settle 0 (inr true)]
                           (init happy_stores 0)))
     = [E_approve ERC721
          {| tokenIds := Some [42]; tokenAddress := "0x1234567890123456789012345678901234567890";
             spenderAddress := "0xVault721"; wallet := "wallet" |}].
Proof.
  destruct (approve_frame env s) as (s1 & fx1 & Heq & _ & _ & _ & _ & _ & _ & _ & _ & _ & _ & Ht & _).
  assert (Hstep : step (Invoke_approve env) s = (s1, fx1))
    by (simpl; unfold job; by rewrite Heq).
  rewrite Hstep. cbn [fst snd].
  assert (Hl : tasks s1 !! length (tasks s) = Some PausedThen).
  { rewrite Ht. rewrite lookup_app_r by lia. by rewrite Nat.sub_diag. }
  split; [done|]. split; [|repeat split; reflexivity].
  unfold step. rewrite Hl. reflexivity.
Qed.

(** C4 as stated fails: no token is selected, the bridge is paused;
    [approve()] raises [BridgePausedError], which nothing catches. *)
Lemma approve_without_token_raises_when_paused :
  approve_absent (without_token happy_stores) = true
  /\ unhandled (snd (run [Invoke_approve happy_env; Settle 0 (inr true)]
                         (init (without_token happy_stores) 0)))
     = [BridgePaused].
Proof. split; reflexivity. Qed.

(** C4, as amended.  With a precondition of line 96 absent, [approve] asks
    the pause oracle (line 91) and returns: nothing is logged or forwarded,
    no other collaborator is called, nothing is submitted, no component
    variable and no store changes; if the oracle then reports "not paused"
    nothing else happens.  With a precondition of line 155 absent, [bridge]
    returns at once with no effect at all. *)
Theorem absent_precondition_is_a_no_op (env : Env) (s : State) :
  (approve_absent (stores s) = true ->
   step (Invoke_approve env) s
   = (with_tasks (fun ts => ts ++ [PausedThen]) s, [E_isBridgePaused])
   /\ step (Settle (length (tasks s)) (inr false))
           (with_tasks (fun ts => ts ++ [PausedThen]) s)
      = (s, []))
  /\ (bridge_absent (stores s) = true ->
      step (Invoke_bridge env) s = (s, [])).
Proof.
  split.
  - intros Ha. split.
    + simpl. unfold job, approve, approve_try, bind, emit, attach, try_catch, read, ret.
      simpl. rewrite Ha. reflexivity.
    + unfold step. simpl.
      rewrite lookup_app_r by lia. rewrite Nat.sub_diag. simpl.
      unfold job, continuation, onPaused, ret, with_tasks. simpl.
      rewrite delete_middle. rewrite app_nil_r. by destruct s.
  - intros Hb. simpl. unfold job, bridge, bind, read, ret. simpl. by rewrite Hb.
Qed.

(** No token selected: both guards return. *)
Lemma absent_precondition_is_a_no_op_witness :
  approve_absent (stores (init (without_token happy_stores) 0)) = true
  /\ bridge_absent (stores (init (without_token happy_stores) 0)) = true
  /\ step (Invoke_bridge happy_env) (init (without_token happy_stores) 0)
     = (init (without_token happy_stores) 0, [])
  /\ snd (step (Invoke_approve happy_env) (init (without_token happy_stores) 0))
     = [E_isBridgePaused].
Proof.
  destruct (absent_precondition_is_a_no_op happy_env (init (without_token happy_stores) 0))
    as [Ha Hb].
  split; [reflexivity|]. split; [reflexivity|].
  split; [exact (Hb eq_refl)|].
  destruct (Ha eq_refl) as [Hstep _]. rewrite Hstep. reflexivity.
Defined.




(** C6. When the [try] block of [bridge] throws [e] after the guard of line
    155 has passed, the call completes with [bridging] false, nothing is
    handed to the history store, no continuation is left that could persist a
    record later, and [e] is written to the console and forwarded to
    [handleBridgeError]; nothing escapes. *)
Theorem failed_bridge_leaves_nothing_behind (env : Env) (s : State) (e : Error) :
  bridge_absent (stores s) = false ->
  fst (fst (bridge_try env (with_comp (set_bridging true) s))) = Throw e ->
  bridging (comp (fst (step (Invoke_bridge env) s))) = false
  /\ persisted (snd (step (Invoke_bridge env) s)) = []
  /\ tasks (fst (step (Invoke_bridge env) s)) = tasks s
  /\ logged (snd (step (Invoke_bridge env) s)) = [e]
  /\ handled (snd (step (Invoke_bridge env) s)) = [e]
  /\ unhandled (snd (step (Invoke_bridge env) s)) = [].
Proof.
  intros Hg Hthrow. unfold step, job, bridge, bind, read, update, try_catch. simpl.
  rewrite Hg. simpl.
  pose proof (bridge_try_frame env (with_comp (set_bridging true) s)) as H.
  destruct (bridge_try env _) as [[r s1] fx1]. simpl in Hthrow. subst r.
  destruct H as (Hp & Hl & Hh & Hu & _ & _ & _ & _ & _ & Ht).
  unfold bridge_catch, bind, update, emit. simpl.
  rewrite persisted_app, logged_app, handled_app, unhandled_app, Hp, Hl, Hh, Hu.
  simpl. repeat split; try done. by eapply Ht.
Qed.

(** With no selection the [try] block throws "tokenIds not found". *)
Lemma failed_bridge_leaves_nothing_behind_witness :
  bridge_absent (stores (init (stores_of ERC721 None) 0)) = false
  /\ fst (fst (bridge_try happy_env
                 (with_comp (set_bridging true) (init (stores_of ERC721 None) 0))))
     = Throw TokenIdsNotFound
  /\ bridging (comp (fst (step (Invoke_bridge happy_env) (init (stores_of ERC721 None) 0))))
     = false
  /\ logged (snd (step (Invoke_bridge happy_env) (init (stores_of ERC721 None) 0)))
     = [TokenIdsNotFound].
Proof.
  assert (Hg : bridge_absent (stores (init (stores_of ERC721 None) 0)) = false)
    by reflexivity.
  assert (Ht : fst (fst (bridge_try happy_env
                 (with_comp (set_bridging true) (init (stores_of ERC721 None) 0))))
               = Throw TokenIdsNotFound) by reflexivity.
  destruct (failed_bridge_leaves_nothing_behind
              happy_env (init (stores_of ERC721 None) 0) TokenIdsNotFound Hg Ht)
    as (Hb & _ & _ & Hl & _).
  split; [exact Hg|]. split; [exact Ht|]. split; [exact Hb|exact Hl].
Defined.

(** C7.  [approve()] hands the token's address on the source chain to viem's
    [getAddress] (line 99) before it tests it (line 101).  For a token
    without an address on the source chain the argument is [undefined] and
    [getAddress] throws: the call reports [InvalidAddressError], the
    fallback of lines 101-109 is not entered, the cross-chain resolver (which
    has no address either) is never asked, and the error is not one of the
    two "address not found" errors.  No approval is submitted. *)
Theorem missing_address_is_reported_as_invalid :
  Token.addresses (token_of ERC721) !! 5 = None
  /\ getCrossChainAddress happy_env (Some (token_of ERC721)) 5 10 = inr None
  /\ snd (step (Invoke_approve happy_env) (init (on_chain 5 happy_stores) 0))
     = [E_isBridgePaused;
        E_getConnectedWallet 5;
        E_getAddress None;
        E_consoleError InvalidAddressError;
        E_handleBridgeError InvalidAddressError]
  /\ ~ AddressNotFound InvalidAddressError
  /\ submissions (snd (step (Invoke_approve happy_env)
                            (init (on_chain 5 happy_stores) 0))) = [].
Proof.
  split; [reflexivity|]. split; [reflexivity|]. split; [vm_compute; reflexivity|].
  split; [|vm_compute; reflexivity].
  intros [H|H]; discriminate H.
Qed.

(** C8 as stated fails: the bridge transaction is submitted at time 1000, the
    tracker confirms it 5000 ms later, and the record carries 6000. *)
Lemma timestamp_is_not_the_submission_time :
  clock (init happy_stores 1000) = 1000
  /\ exists tx,
       persisted (snd (run [Invoke_bridge happy_env; Tick 5000; Settle 0 (inr true)]
                           (init happy_stores 1000)))
       = [(alice, tx)]
       /\ timestamp tx = 6000
       /\ timestamp tx <> clock (init happy_stores 1000).
Proof.
  split; [reflexivity|]. eexists. split; [reflexivity|]. split; [reflexivity|].
  simpl. lia.
Qed.

(** C8, as amended.  The record handed to the history store when the
    confirmation of a bridge transaction is fulfilled has the hash of that
    transaction, the source and destination chain ids the handler read when
    the hash was obtained (as bigints), the amount, symbol, decimals and token
    type of the stores, status [NEW], and as its timestamp the time at which
    the continuation runs ([Date.now()] inside the continuation), not the time
    of submission.  On the happy path (chains 1 and 10) the record has
    [srcChainId = 1], [destChainId = 10], [status = NEW], and a timestamp [d]
    later than the submission. *)
Theorem persisted_record_fields (env : Env) (s : State) (k : Closure) :
  tasks (fst (step (Invoke_bridge env) s)) = tasks s ++ [ConfirmedThen k] ->
  bridgeTxHash (comp (fst (step (Invoke_bridge env) s))) = Some (k_txHash k)
  /\ id <$> network (stores (fst (step (Invoke_bridge env) s))) = Some (k_currentChain k)
  /\ id <$> destNetwork (stores (fst (step (Invoke_bridge env) s)))
     = Some (k_destinationChain k)
  /\ (account (stores (fst (step (Invoke_bridge env) s))) ≫= address)
     = Some (k_userAccount k)
  /\ (forall s' n v acct,
        tasks s' !! n = Some (ConfirmedThen k) ->
        account (stores s') = Some acct ->
        persisted (snd (step (Settle n (inr v)) s'))
        = [(k_userAccount k,
            {| hash := k_txHash k;
               from := address acct;
               amount := enteredAmount (stores s');
               symbol := Token.symbol <$> selectedToken (stores s');
               decimals := Token.decimals <$> selectedToken (stores s');
               srcChainId := BigInt (k_currentChain k);
               destChainId := BigInt (k_destinationChain k);
               tokenType := Token.type <$> selectedToken (stores s');
               status := NEW;
               timestamp := clock s' |})])
  /\ (forall time d,
        persisted (snd (run [Invoke_bridge happy_env; Tick d; Settle 0 (inr true)]
                            (init happy_stores time)))
        = [(alice,
            {| hash := "0xBRIDGE"; from := Some alice; amount := 1;
               symbol := Some "APE"; decimals := Some 0;
               srcChainId := 1; destChainId := 10;
               tokenType := Some ERC721; status := NEW;
               timestamp := time + d |})]).
Proof.
  intros Hreg.
  destruct (bridge_frame env s) as (s1 & fx1 & Heq & Hp & _ & _ & _ & _ & _ & Ht).
  assert (Hstep : step (Invoke_bridge env) s = (s1, fx1))
    by (simpl; unfold job; by rewrite Heq).
  rewrite Hstep in Hreg |- *. cbn [fst snd] in Hreg |- *.
  destruct Ht as [Ht|(k' & service & args & Ht & Hb & Hsvc & Hh & Hn & Hd & Ha & Hin)].
  { rewrite Ht in Hreg. apply (f_equal length) in Hreg.
    rewrite length_app in Hreg. simpl in Hreg. lia. }
  rewrite Ht in Hreg. apply app_inv_head in Hreg. injection Hreg as ->.
  repeat split; try done.
  intros s' n v acct Hn' Ha'.
  destruct (settle_confirmed s' n v k acct Hn' Ha') as (s2 & Hset & _).
  by rewrite Hset.
Qed.

(** The happy path registers [happy_closure], with the ids of chains 1 and 10. *)
Lemma persisted_record_fields_witness :
  tasks (fst (step (Invoke_bridge happy_env) (init happy_stores 0)))
  = tasks (init happy_stores 0) ++ [ConfirmedThen happy_closure]
  /\ id <$> network (stores (fst (step (Invoke_bridge happy_env) (init happy_stores 0))))
     = Some 1
  /\ id <$> destNetwork (stores (fst (step (Invoke_bridge happy_env) (init happy_stores 0))))
     = Some 10.
Proof.
  assert (Hreg : tasks (fst (step (Invoke_bridge happy_env) (init happy_stores 0)))
                 = tasks (init happy_stores 0) ++ [ConfirmedThen happy_closure])
    by reflexivity.
  destruct (persisted_record_fields happy_env (init happy_stores 0) happy_closure Hreg)
    as (_ & Hs & Hd & _).
  split; [exact Hreg|]. split; [exact Hs|exact Hd].
Defined.



(** C10 as stated fails in its last clause.  The wallet is disconnected
    while the first bridge transaction is signed: the handler gives up and
    [bridging] stays [true].  The user reconnects and invokes [bridge()] again;
    the wallet request is rejected, and the [catch] block of that call resets
    [bridging].  Had the second call gone through, its confirmation would
    have set [bridgingStatus] to [done] and persisted a record. *)
Lemma later_bridge_call_resets_the_flag :
  bridgeTxHash (comp (fst (step (Invoke_bridge disconnecting_env) (init happy_stores 0))))
  = Some "0xBRIDGE"
  /\ unresolvable (stores (fst (step (Invoke_bridge disconnecting_env)
                                     (init happy_stores 0)))) = true
  /\ bridging (comp (fst (step (Invoke_bridge disconnecting_env) (init happy_stores 0))))
     = true
  /\ bridging (comp (fst (run [Invoke_bridge disconnecting_env;
                               StoresChange happy_stores;
                               Invoke_bridge rejecting_env]
                              (init happy_stores 0)))) = false
  /\ bridgingStatus (comp (fst (run [Invoke_bridge disconnecting_env;
                                     StoresChange happy_stores;
                                     Invoke_bridge happy_env;
                                     Settle 0 (inr true)]
                                    (init happy_stores 0)))) = done
  /\ length (persisted (snd (run [Invoke_bridge disconnecting_env;
                                  StoresChange happy_stores;
                                  Invoke_bridge happy_env;
                                  Settle 0 (inr true)]
                                 (init happy_stores 0)))) = 1%nat.
Proof. repeat split; reflexivity. Qed.

(** C10, as amended.  When [bridge()] has obtained a hash [h] and the
    handler finds the source chain id, the destination chain id or the sender
    address unresolvable, the handler returns without registering the hash
    with the tracker and without writing anything: the call ends normally,
    nothing is logged, forwarded or persisted, [bridging] is left [true] and
    [bridgingStatus] as it was.  With no confirmation of an earlier call
    outstanding, they stay so through every later turn of the event loop that
    is not a new [bridge()] call. *)
Theorem aborted_handler_leaves_bridging_set
  (env : Env) (s : State) (service : BridgeService) (args : BridgeArgs) (h : Hash) :
  In (E_bridge service args) (snd (step (Invoke_bridge env) s)) ->
  bridgeService_bridge env service args = inr (Some h) ->
  truthy h = true ->
  unresolvable (stores (fst (step (Invoke_bridge env) s))) = true ->
  handleBridgeTxHash env h (fst (step (Invoke_bridge env) s))
  = (Normal tt, fst (step (Invoke_bridge env) s), [])
  /\ (forall h' c,
        ~ In (E_pendingTransactions_add h' c) (snd (step (Invoke_bridge env) s)))
  /\ tasks (fst (step (Invoke_bridge env) s)) = tasks s
  /\ logged (snd (step (Invoke_bridge env) s)) = []
  /\ handled (snd (step (Invoke_bridge env) s)) = []
  /\ unhandled (snd (step (Invoke_bridge env) s)) = []
  /\ persisted (snd (step (Invoke_bridge env) s)) = []
  /\ bridgeTxHash (comp (fst (step (Invoke_bridge env) s))) = Some h
  /\ statusTitle (comp (fst (step (Invoke_bridge env) s))) = statusTitle (comp s)
  /\ statusDescription (comp (fst (step (Invoke_bridge env) s)))
     = statusDescription (comp s)
  /\ bridging (comp (fst (step (Invoke_bridge env) s))) = true
  /\ bridgingStatus (comp (fst (step (Invoke_bridge env) s))) = bridgingStatus (comp s)
  /\ (forall evs,
        forallb (fun e => negb (is_bridge_invocation e)) evs = true ->
        confirmations (tasks s) = [] ->
        bridging (comp (fst (run evs (fst (step (Invoke_bridge env) s))))) = true
        /\ bridgingStatus (comp (fst (run evs (fst (step (Invoke_bridge env) s)))))
           = bridgingStatus (comp s)
        /\ persisted (snd (run evs (fst (step (Invoke_bridge env) s)))) = []).
Proof.
  intros Hin Hsvc Hh Hun.
  assert (exists s1 fx1,
             step (Invoke_bridge env) s = (s1, fx1)
             /\ bridge_try env (with_comp (set_bridging true) s) = (Normal tt, s1, fx1))
    as (s1 & fx1 & Hstep & Htry).
  { revert Hin Hun. simpl. unfold job, bridge, bind, read, update, try_catch, ret. simpl.
    destruct (bridge_absent (stores s)); simpl; [done|].
    pose proof (bridge_try_aborted env (with_comp (set_bridging true) s) service args h) as Ha.
    destruct (bridge_try env _) as [[r s1] fx1].
    destruct r as [[]|e]; simpl; [eauto|].
    unfold bridge_catch, bind, update, emit. simpl.
    intros Hin Hun. exfalso.
    apply in_app_or in Hin as [Hin|Hin]; [|simpl in Hin; intuition discriminate].
    by destruct (Ha Hin Hsvc Hh Hun) as [? _]. }
  rewrite Hstep in Hin, Hun |- *. cbn [fst snd] in Hin, Hun |- *.
  pose proof (bridge_try_aborted env (with_comp (set_bridging true) s) service args h) as Ha.
  pose proof (bridge_try_frame env (with_comp (set_bridging true) s)) as Hf.
  rewrite Htry in Ha, Hf.
  destruct (Ha Hin Hsvc Hh Hun) as (_ & Ht & Hhash & Hti & Hde & Hno).
  destruct Hf as (Hp & Hl & Hhd & Hu & Hst & Hbg & _).
  split; [by apply handler_gives_up|].
  repeat (split; [done|]).
  intros evs Hall Hnil.
  assert (Hnil1 : confirmations (tasks s1) = []) by (by rewrite Ht).
  destruct (run_idle evs s1 Hall Hnil1) as (-> & -> & ->). done.
Qed.

(** The wallet is disconnected while the transaction is signed. *)
Lemma aborted_handler_leaves_bridging_set_witness :
  unresolvable (stores (fst (step (Invoke_bridge disconnecting_env) (init happy_stores 0))))
  = true
  /\ bridging (comp (fst (step (Invoke_bridge disconnecting_env) (init happy_stores 0))))
     = true
  /\ tasks (fst (step (Invoke_bridge disconnecting_env) (init happy_stores 0))) = [].
Proof.
  assert (Hin : In (E_bridge {| serviceOf := ERC721 |}
                      {| bridgeArgs := "bundle"; b_tokenIds := [42] |})
                   (snd (step (Invoke_bridge disconnecting_env) (init happy_stores 0))))
    by (vm_compute; repeat (first [left; reflexivity | right])).
  destruct (aborted_handler_leaves_bridging_set
              disconnecting_env (init happy_stores 0)
              {| serviceOf := ERC721 |}
              {| bridgeArgs := "bundle"; b_tokenIds := [42] |}
              "0xBRIDGE" Hin eq_refl eq_refl eq_refl)
    as (_ & _ & Ht & _ & _ & _ & _ & _ & _ & _ & Hb & _).
  split; [reflexivity|]. split; [exact Hb|exact Ht].
Defined.

(** * Further properties of the component *)

(** ** The template *)

Lemma run_done evs s :
  bridgingStatus (comp s) = done ->
  bridgingStatus (comp (fst (run evs s))) = done.
Proof.
  revert s. induction evs as [|e evs IH]; intros s Hd; simpl; [done|].
  pose proof (step_done e s Hd) as H1.
  destruct (step e s) as [s1 fx1]. simpl in H1.
  specialize (IH s1 H1). destruct (run evs s1) as [s2 fx2]. exact IH.
Qed.

(** X1. The [{#if}] chain of the status section has no [{:else}], yet its
    four conditions cover every state: some panel is always rendered. *)
Theorem txStatus_always_shows_a_panel (theme : string) (s : State) :
  txStatus theme s <> None.
Proof.
  unfold txStatus, truthy, truthy_bool.
  destruct (decide (bridgingStatus (comp s) = done)); [done|].
  destruct (allApproved (stores s)), (approving (comp s)), (bridging (comp s)); done.
Qed.

(** X2. The spinner is rendered exactly when the status is not [done] and
    either [approving] is set, or [bridging] is set and every token is
    approved.  In particular [bridging] alone does not show it: while the
    tokens are not all approved and [approving] is unset, the approve prompt
    of the earlier branch wins. *)
Theorem spinner_is_shown_iff (theme : string) (s : State) :
  (exists p, txStatus theme s = Some p /\ visual p = SpinnerOf)
  <-> bridgingStatus (comp s) = pending
      /\ (approving (comp s) = true
          \/ allApproved (stores s) = true /\ bridging (comp s) = true).
Proof.
  unfold txStatus, truthy, truthy_bool.
  destruct (bridgingStatus (comp s)) eqn:Hst;
    destruct (allApproved (stores s)), (approving (comp s)), (bridging (comp s));
    simpl; split.
  all: try (intros (p & [= <-] & Hv); simpl in Hv; try discriminate Hv).
  all: try (intros (_ & [H|[H1 H2]]); discriminate).
  all: try (intros [H _]; discriminate).
  all: try (intros _; eexists; split; [reflexivity|reflexivity]).
  all: try (split; [reflexivity|]; auto).
Qed.

(** X3. Once [bridgingStatus] is [done] the view is final: whatever is
    invoked or settled afterwards, the success panel stays and the [Actions]
    child, and with it the approve and bridge buttons, is no longer rendered.
    [Actions] is rendered exactly while the status is [pending]. *)
Theorem done_view_is_final (theme : string) (evs : list Event) (s : State) :
  bridgingStatus (comp s) = done ->
  actions (fst (run evs s)) = false
  /\ (exists p,
        txStatus theme (fst (run evs s)) = Some p
        /\ visual p = IconOf (iconType "success" theme))
  /\ (forall s', actions s' = true <-> bridgingStatus (comp s') = pending).
Proof.
  intros Hd. pose proof (run_done evs s Hd) as H.
  unfold actions, txStatus. rewrite H. simpl.
  split; [done|]. split; [eauto|].
  intros s'. destruct (bridgingStatus (comp s')); simpl; split; done.
Qed.

(** A confirmed bridge transaction, then another [approve()] and [bridge()]. *)
Lemma done_view_is_final_witness :
  actions (fst (run [Invoke_approve happy_env; Invoke_bridge happy_env]
                    (fst (run [Invoke_bridge happy_env; Settle 0 (inr true)]
                              (init happy_stores 0))))) = false.
Proof.
  exact (proj1 (done_view_is_final
                  "dark" [Invoke_approve happy_env; Invoke_bridge happy_env]
                  (fst (run [Invoke_bridge happy_env; Settle 0 (inr true)]
                            (init happy_stores 0)))
                  eq_refl)).
Defined.


(** ** [bridge] and its handler *)

(** What a registration by [bridge_try] leaves on the screen. *)
Lemma bridge_try_status env s :
  match bridge_try env s with
  | (r, s1, fx1) =>
      forall k,
        tasks s1 = tasks s ++ [ConfirmedThen k] ->
        statusTitle (comp s1) = T "bridge.actions.bridge.tx.title" []
        /\ statusDescription (comp s1)
           = T "bridge.actions.bridge.tx.message"
               [("url", txUrl (k_explorer k) (k_txHash k))]
        /\ exists conf,
             chainConfig env !! k_currentChain k = Some conf
             /\ explorer conf = k_explorer k
  end.
Proof.
  exec_goal; intros k Ht.
  all: try (apply (f_equal length) in Ht; rewrite length_app in Ht; simpl in Ht; lia).
  all: apply app_inv_head in Ht; injection Ht as <-; simpl.
  all: split; [reflexivity|]; split; [reflexivity|]; eauto.
Qed.

(** The service resolves with no hash: line 176 skips the handler. *)
Lemma bridge_try_no_hash env s service args h :
  match bridge_try env s with
  | (r, s1, fx1) =>
      In (E_bridge service args) fx1 ->
      bridgeService_bridge env service args = inr h ->
      truthy h = false ->
      r = Normal tt
      /\ tasks s1 = tasks s
      /\ bridgeTxHash (comp s1) = h
      /\ statusTitle (comp s1) = statusTitle (comp s)
      /\ statusDescription (comp s1) = statusDescription (comp s)
      /\ (forall h' c, ~ In (E_pendingTransactions_add h' c) fx1)
  end.
Proof.
  exec_goal; intros Hin Hsvc Hh; simpl in Hin;
    try (exfalso; intuition congruence).
  all: split_effects; simplify_eq; simpl in *; unfold_truthy; simplify_eq.
  all: try (exfalso; congruence).
  all: repeat split; try done; try congruence.
  all: try (intros h' c' Hc; simpl in Hc; intuition discriminate).
Qed.

(** The handler finds no entry for the source chain in [chainConfig]. *)
Lemma bridge_try_no_explorer env s service args h c :
  match bridge_try env s with
  | (r, s1, fx1) =>
      In (E_bridge service args) fx1 ->
      bridgeService_bridge env service args = inr (Some h) ->
      truthy h = true ->
      unresolvable (stores s1) = false ->
      id <$> network (stores s1) = Some c ->
      chainConfig env !! c = None ->
      r = Throw (TypeError "chainConfig[currentChain]")
      /\ tasks s1 = tasks s
      /\ bridgeTxHash (comp s1) = Some h
      /\ statusTitle (comp s1) = statusTitle (comp s)
      /\ statusDescription (comp s1) = statusDescription (comp s)
      /\ (forall h' c', ~ In (E_pendingTransactions_add h' c') fx1)
  end.
Proof.
  unfold unresolvable.
  exec_goal; intros Hin Hsvc Hh Hun Hc Hnone; simpl in Hin;
    try (exfalso; intuition congruence).
  all: split_effects; simplify_eq; simpl in *; unfold_truthy; simplify_eq.
  all: try (exfalso; congruence).
  all: try (repeat split; try done; try congruence;
            intros h' c' Hc'; simpl in Hc'; intuition discriminate).
  all: exfalso; revert Hun; clear; intros Hun;
    repeat match goal with
           | H : context [?a =? ?b] |- _ => destruct (a =? b)
           end; simpl in Hun; discriminate.
Qed.

(** What reaches the bridge service is what the builder returned. *)
Lemma bridge_try_args env s :
  match bridge_try env s with
  | (r, s1, fx1) =>
      forall service args,
        In (E_bridge service args) fx1 ->
        exists token amount common,
          In (E_getBridgeArgs token amount common (b_tokenIds args)) fx1
          /\ getBridgeArgs env token amount common (b_tokenIds args)
             = inr (bridgeArgs args)
  end.
Proof.
  exec_goal; intros service args Hin; simpl in Hin.
  all: split_effects; simplify_eq.
  all: eexists _, _, _; simpl; split; [|eassumption].
  all: repeat (first [left; reflexivity | right]).
Qed.


(** How a turn that invokes [bridge] ends. *)
Lemma bridge_step_cases env s :
  bridge_absent (stores s) = true /\ step (Invoke_bridge env) s = (s, [])
  \/ bridge_absent (stores s) = false
     /\ exists r s1 fx1,
          bridge_try env (with_comp (set_bridging true) s) = (r, s1, fx1)
          /\ (r = Normal tt /\ step (Invoke_bridge env) s = (s1, fx1)
              \/ exists e,
                   r = Throw e
                   /\ step (Invoke_bridge env) s
                      = (with_comp (set_bridging false) s1,
                         fx1 ++ [E_consoleError e; E_handleBridgeError e])).
Proof.
  simpl. unfold job, bridge, bind, read, update, try_catch, ret. simpl.
  destruct (bridge_absent (stores s)); simpl; [by left|]. right. split; [done|].
  destruct (bridge_try env _) as [[r s1] fx1].
  eexists _, _, _. split; [reflexivity|].
  destruct r as [[]|e]; simpl; [by left|]. right. exists e. split; [done|].
  unfold bridge_catch, bind, update, emit. simpl. reflexivity.
Qed.

(** X4. After [bridge()] the flag tells whether the call failed: with the
    guard of line 155 passed, [bridging] is [true] when no error was
    reported and [false] when one was. *)
Theorem bridging_tells_whether_bridge_failed (env : Env) (s : State) :
  bridge_absent (stores s) = false ->
  bridging (comp (fst (step (Invoke_bridge env) s)))
  = match logged (snd (step (Invoke_bridge env) s)) with
    | [] => true
    | _ :: _ => false
    end.
Proof.
  intros Hg.
  destruct (bridge_step_cases env s) as [[Ha _]|(_ & r & s1 & fx1 & Htry & Hcase)];
    [congruence|].
  pose proof (bridge_try_frame env (with_comp (set_bridging true) s)) as Hf.
  rewrite Htry in Hf. destruct Hf as (_ & Hl & _ & _ & _ & Hb & _).
  destruct Hcase as [[_ ->]|(e & _ & ->)]; simpl.
  - by rewrite Hl, Hb.
  - rewrite logged_app, Hl. reflexivity.
Qed.

(** A call through the guard: either result is seen. *)
Lemma bridging_tells_whether_bridge_failed_witness :
  bridging (comp (fst (step (Invoke_bridge happy_env) (init happy_stores 0)))) = true
  /\ bridging (comp (fst (step (Invoke_bridge rejecting_env) (init happy_stores 0))))
     = false.
Proof.
  split.
  - exact (bridging_tells_whether_bridge_failed happy_env (init happy_stores 0) eq_refl).
  - exact (bridging_tells_whether_bridge_failed rejecting_env (init happy_stores 0) eq_refl).
Defined.

(** X5. When the bridge service resolves without a hash ([undefined] or the
    empty string), line 176 skips the handler: the call ends normally with
    [bridging] still [true], the value stored in [bridgeTxHash], nothing
    registered with the tracker, nothing logged, forwarded or persisted and
    the status text untouched. *)
Theorem bridge_without_hash_stays_bridging
  (env : Env) (s : State) (service : BridgeService) (args : BridgeArgs) (h : option Hash) :
  In (E_bridge service args) (snd (step (Invoke_bridge env) s)) ->
  bridgeService_bridge env service args = inr h ->
  truthy h = false ->
  bridging (comp (fst (step (Invoke_bridge env) s))) = true
  /\ bridgeTxHash (comp (fst (step (Invoke_bridge env) s))) = h
  /\ bridgingStatus (comp (fst (step (Invoke_bridge env) s))) = bridgingStatus (comp s)
  /\ statusTitle (comp (fst (step (Invoke_bridge env) s))) = statusTitle (comp s)
  /\ statusDescription (comp (fst (step (Invoke_bridge env) s)))
     = statusDescription (comp s)
  /\ tasks (fst (step (Invoke_bridge env) s)) = tasks s
  /\ (forall h' c,
        ~ In (E_pendingTransactions_add h' c) (snd (step (Invoke_bridge env) s)))
  /\ logged (snd (step (Invoke_bridge env) s)) = []
  /\ handled (snd (step (Invoke_bridge env) s)) = []
  /\ persisted (snd (step (Invoke_bridge env) s)) = [].
Proof.
  intros Hin Hsvc Hh.
  destruct (bridge_step_cases env s) as [[_ Hs]|(_ & r & s1 & fx1 & Htry & Hcase)].
  { rewrite Hs in Hin. destruct Hin. }
  pose proof (bridge_try_no_hash env (with_comp (set_bridging true) s) service args h) as Hn.
  pose proof (bridge_try_frame env (with_comp (set_bridging true) s)) as Hf.
  rewrite Htry in Hn, Hf.
  destruct Hf as (Hp & Hl & Hhd & _ & Hst & Hb & _).
  destruct Hcase as [[_ Hs]|(e & -> & Hs)]; rewrite Hs in Hin |- *; simpl in Hin |- *.
  - destruct (Hn Hin Hsvc Hh) as (_ & Ht & Hhash & Hti & Hde & Hno).
    repeat split; done.
  - exfalso. apply in_app_or in Hin as [Hin|Hin]; [|simpl in Hin; intuition discriminate].
    by destruct (Hn Hin Hsvc Hh) as [? _].
Qed.

(** X6. When the handler has the chain ids and the sender but [chainConfig]
    has no entry for the source chain, reading its explorer throws inside
    the [try] block after the transaction was submitted: the error is logged
    and forwarded, [bridging] is reset, and the submitted hash is never
    handed to the tracker, so no record of it can be persisted. *)
Theorem bridge_without_explorer_is_untracked
  (env : Env) (s : State) (service : BridgeService) (args : BridgeArgs) (h : Hash) (c : Z) :
  In (E_bridge service args) (snd (step (Invoke_bridge env) s)) ->
  bridgeService_bridge env service args = inr (Some h) ->
  truthy h = true ->
  unresolvable (stores (fst (step (Invoke_bridge env) s))) = false ->
  id <$> network (stores (fst (step (Invoke_bridge env) s))) = Some c ->
  chainConfig env !! c = None ->
  logged (snd (step (Invoke_bridge env) s)) = [TypeError "chainConfig[currentChain]"]
  /\ handled (snd (step (Invoke_bridge env) s)) = [TypeError "chainConfig[currentChain]"]
  /\ bridging (comp (fst (step (Invoke_bridge env) s))) = false
  /\ bridgeTxHash (comp (fst (step (Invoke_bridge env) s))) = Some h
  /\ tasks (fst (step (Invoke_bridge env) s)) = tasks s
  /\ (forall h' c',
        ~ In (E_pendingTransactions_add h' c') (snd (step (Invoke_bridge env) s)))
  /\ persisted (snd (step (Invoke_bridge env) s)) = [].
Proof.
  intros Hin Hsvc Hh Hun Hc Hnone.
  destruct (bridge_step_cases env s) as [[_ Hs]|(_ & r & s1 & fx1 & Htry & Hcase)].
  { rewrite Hs in Hin. destruct Hin. }
  pose proof (bridge_try_no_explorer env (with_comp (set_bridging true) s)
                service args h c) as Hn.
  pose proof (bridge_try_frame env (with_comp (set_bridging true) s)) as Hf.
  rewrite Htry in Hn, Hf.
  destruct Hf as (Hp & Hl & Hhd & _ & Hst & Hb & _).
  destruct Hcase as [[-> Hs]|(e & -> & Hs)];
    rewrite Hs in Hin, Hun, Hc |- *; simpl in Hin, Hun, Hc |- *.
  - by destruct (Hn Hin Hsvc Hh Hun Hc Hnone) as [? _].
  - apply in_app_or in Hin as [Hin|Hin]; [|simpl in Hin; intuition discriminate].
    destruct (Hn Hin Hsvc Hh Hun Hc Hnone) as ([= ->] & Ht & Hhash & _ & _ & Hno).
    rewrite logged_app, handled_app, persisted_app, Hl, Hhd, Hp. simpl.
    repeat split; try done.
    intros h' c' Hadd. apply in_app_or in Hadd as [Hadd|Hadd]; [by eapply Hno|].
    simpl in Hadd. intuition discriminate.
Qed.

(** X7. The bridge service is called with exactly the bundle the argument
    builder resolved with, merged with the token ids the builder was given. *)
Theorem bridge_submits_what_the_builder_returned
  (env : Env) (s : State) (service : BridgeService) (args : BridgeArgs) :
  In (E_bridge service args) (snd (step (Invoke_bridge env) s)) ->
  exists token amount common,
    In (E_getBridgeArgs token amount common (b_tokenIds args))
       (snd (step (Invoke_bridge env) s))
    /\ getBridgeArgs env token amount common (b_tokenIds args) = inr (bridgeArgs args).
Proof.
  intros Hin.
  destruct (bridge_step_cases env s) as [[_ Hs]|(_ & r & s1 & fx1 & Htry & Hcase)].
  { rewrite Hs in Hin. destruct Hin. }
  pose proof (bridge_try_args env (with_comp (set_bridging true) s)) as Ha.
  rewrite Htry in Ha.
  destruct Hcase as [[_ Hs]|(e & _ & Hs)]; rewrite Hs in Hin |- *; simpl in Hin |- *.
  - exact (Ha service args Hin).
  - apply in_app_or in Hin as [Hin|Hin]; [|simpl in Hin; intuition discriminate].
    destruct (Ha service args Hin) as (token & amount & common & H1 & H2).
    exists token, amount, common. split; [|done]. apply in_or_app. by left.
Qed.


(** The service resolves with [undefined]. *)
Lemma bridge_without_hash_stays_bridging_witness :
  bridging (comp (fst (step (Invoke_bridge hashless_env) (init happy_stores 0)))) = true
  /\ tasks (fst (step (Invoke_bridge hashless_env) (init happy_stores 0))) = [].
Proof.
  assert (Hin : In (E_bridge {| serviceOf := ERC721 |}
                      {| bridgeArgs := "bundle"; b_tokenIds := [42] |})
                   (snd (step (Invoke_bridge hashless_env) (init happy_stores 0))))
    by (vm_compute; repeat (first [left; reflexivity | right])).
  destruct (bridge_without_hash_stays_bridging
              hashless_env (init happy_stores 0) _ _ None Hin eq_refl eq_refl)
    as (Hb & _ & _ & _ & _ & Ht & _).
  split; [exact Hb|exact Ht].
Defined.

(** No chain is configured. *)
Lemma bridge_without_explorer_is_untracked_witness :
  logged (snd (step (Invoke_bridge unconfigured_env) (init happy_stores 0)))
  = [TypeError "chainConfig[currentChain]"]
  /\ bridging (comp (fst (step (Invoke_bridge unconfigured_env) (init happy_stores 0))))
     = false.
Proof.
  assert (Hin : In (E_bridge {| serviceOf := ERC721 |}
                      {| bridgeArgs := "bundle"; b_tokenIds := [42] |})
                   (snd (step (Invoke_bridge unconfigured_env) (init happy_stores 0))))
    by (vm_compute; repeat (first [left; reflexivity | right])).
  destruct (bridge_without_explorer_is_untracked
              unconfigured_env (init happy_stores 0) _ _ "0xBRIDGE" 1
              Hin eq_refl eq_refl eq_refl eq_refl eq_refl)
    as (Hl & _ & Hb & _).
  split; [exact Hl|exact Hb].
Defined.

(** The bundle of the happy path. *)
Lemma bridge_submits_what_the_builder_returned_witness :
  exists token amount common,
    getBridgeArgs happy_env token amount common [42] = inr "bundle".
Proof.
  assert (Hin : In (E_bridge {| serviceOf := ERC721 |}
                      {| bridgeArgs := "bundle"; b_tokenIds := [42] |})
                   (snd (step (Invoke_bridge happy_env) (init happy_stores 0))))
    by (vm_compute; repeat (first [left; reflexivity | right])).
  destruct (bridge_submits_what_the_builder_returned
              happy_env (init happy_stores 0) _ _ Hin)
    as (token & amount & common & _ & H).
  exists token, amount, common. exact H.
Defined.

(** The arguments [bridge] assembles, in a quiet environment. *)
Lemma bridge_common_args_run (env : Env) (s : State) :
  quiet env ->
  match bridge env s with
  | (r, s1, fx1) =>
      forall token amount common ids,
        In (E_getBridgeArgs token amount common ids) fx1 ->
        token = selectedToken (stores s)
        /\ amount = enteredAmount (stores s)
        /\ to common
           = (if truthy (recipientAddress (stores s))
              then recipientAddress (stores s)
              else account (stores s) ≫= address)
        /\ Some (c_srcChainId common) = id <$> network (stores s)
        /\ getConnectedWallet env (c_srcChainId common) = inr (c_wallet common)
        /\ c_destChainId common = id <$> destNetwork (stores s)
        /\ fee common = processingFee (stores s)
        /\ Some ids = map tokenId <$> selectedNFTs (stores s)
  end.
Proof.
  intros Hq.
  unfold bridge. unfold bind at 1, read at 1. simpl.
  destruct (bridge_absent (stores s)); simpl; [intros ? ? ? ? []|].
  exec_quiet Hq.
  all: intros token amount common ids Hin; simpl in Hin.
  all: split_effects; simplify_eq; simpl.
  all: rewrite_hyps_reads.
  all: repeat split; try done; try congruence.
Qed.


(** X8. In a quiet environment the argument builder is given the selected
    token, the entered amount, the token ids of the selection in its order,
    and common arguments made of the explicit recipient when there is one and
    the sender's own address otherwise, the signing handle obtained for the
    source chain, both chain ids and the processing fee. *)
Theorem bridge_builds_the_common_arguments
  (env : Env) (s : State) (token : option Token) (amount : Z)
  (common : CommonArgs) (ids : list Z) :
  quiet env ->
  In (E_getBridgeArgs token amount common ids) (snd (step (Invoke_bridge env) s)) ->
  token = selectedToken (stores s)
  /\ amount = enteredAmount (stores s)
  /\ to common
     = (if truthy (recipientAddress (stores s))
        then recipientAddress (stores s)
        else account (stores s) ≫= address)
  /\ Some (c_srcChainId common) = id <$> network (stores s)
  /\ getConnectedWallet env (c_srcChainId common) = inr (c_wallet common)
  /\ c_destChainId common = id <$> destNetwork (stores s)
  /\ fee common = processingFee (stores s)
  /\ Some ids = map tokenId <$> selectedNFTs (stores s).
Proof.
  intros Hq Hin.
  pose proof (bridge_common_args_run env s Hq) as H.
  destruct (bridge_frame env s) as (s1 & fx1 & Heq & _).
  assert (Hstep : step (Invoke_bridge env) s = (s1, fx1))
    by (simpl; unfold job; by rewrite Heq).
  rewrite Heq in H. rewrite Hstep in Hin. exact (H _ _ _ _ Hin).
Qed.

(** With a recipient the transfer goes to it. *)
Lemma bridge_builds_the_common_arguments_witness :
  getConnectedWallet happy_env 1 = inr "wallet"
  /\ Some [42] = map tokenId <$> selectedNFTs (stores (init (to_bob happy_stores) 0)).
Proof.
  assert (Hin : In (E_getBridgeArgs
                      (selectedToken (to_bob happy_stores)) 1
                      {| to := Some bob; c_wallet := "wallet"; c_srcChainId := 1;
                         c_destChainId := Some 10; fee := 0 |}
                      [42])
                   (snd (step (Invoke_bridge happy_env) (init (to_bob happy_stores) 0))))
    by (vm_compute; repeat (first [left; reflexivity | right])).
  destruct (bridge_builds_the_common_arguments
              happy_env (init (to_bob happy_stores) 0) _ _ _ _ happy_env_quiet Hin)
    as (_ & _ & _ & _ & Hw & _ & _ & Hids).
  split; [exact Hw|exact Hids].
Defined.

(** ** The continuations *)

(** The confirmation continuation when the account store is defined: what
    it leaves on the screen. *)
Lemma settle_confirmed_view theme s n v k acct :
  tasks s !! n = Some (ConfirmedThen k) ->
  account (stores s) = Some acct ->
  txStatus theme (fst (step (Settle n (inr v)) s))
  = Some {| visual := IconOf (iconType "success" theme);
            heading := T "bridge.actions.bridge.success.title" [];
            body := T "bridge.nft.step.confirm.bridge.success.message"
                      [("url", txUrl (k_explorer k) (k_txHash k))] |}
  /\ actions (fst (step (Settle n (inr v)) s)) = false.
Proof.
  intros Ht Ha. unfold step. rewrite Ht. unfold job, continuation.
  unfold_m. simpl. rewrite Ha. simpl. done.
Qed.

(** X9. The explorer link shown while a bridge transaction is pending and the
    one shown on success are the same: the explorer of the source chain the
    handler read, followed by [/tx/] and the hash.  While the transaction
    awaits confirmation (tokens approved, no approval running) the spinner
    is shown; its fulfilment replaces it with the success panel carrying that
    link and removes the actions. *)
Theorem pending_and_success_show_the_same_link
  (theme : string) (env : Env) (s : State) (k : Closure) :
  tasks (fst (step (Invoke_bridge env) s)) = tasks s ++ [ConfirmedThen k] ->
  (exists conf,
      chainConfig env !! k_currentChain k = Some conf
      /\ k_explorer k = explorer conf)
  /\ statusTitle (comp (fst (step (Invoke_bridge env) s)))
     = T "bridge.actions.bridge.tx.title" []
  /\ statusDescription (comp (fst (step (Invoke_bridge env) s)))
     = T "bridge.actions.bridge.tx.message" [("url", txUrl (k_explorer k) (k_txHash k))]
  /\ (bridgingStatus (comp s) = pending ->
      approving (comp s) = false ->
      allApproved (stores (fst (step (Invoke_bridge env) s))) = true ->
      exists p,
        txStatus theme (fst (step (Invoke_bridge env) s)) = Some p
        /\ visual p = SpinnerOf)
  /\ (forall s' n v acct,
        tasks s' !! n = Some (ConfirmedThen k) ->
        account (stores s') = Some acct ->
        txStatus theme (fst (step (Settle n (inr v)) s'))
        = Some {| visual := IconOf (iconType "success" theme);
                  heading := T "bridge.actions.bridge.success.title" [];
                  body := T "bridge.nft.step.confirm.bridge.success.message"
                            [("url", txUrl (k_explorer k) (k_txHash k))] |}
        /\ actions (fst (step (Settle n (inr v)) s')) = false).
Proof.
  intros Hreg.
  destruct (bridge_step_cases env s) as [[_ Hs]|(_ & r & s1 & fx1 & Htry & Hcase)].
  { rewrite Hs in Hreg. simpl in Hreg. apply (f_equal length) in Hreg.
    rewrite length_app in Hreg. simpl in Hreg. lia. }
  pose proof (bridge_try_status env (with_comp (set_bridging true) s)) as Hst.
  pose proof (bridge_try_frame env (with_comp (set_bridging true) s)) as Hf.
  rewrite Htry in Hst, Hf.
  destruct Hf as (_ & _ & _ & _ & Hbs & Hb & Hap & _ & _ & Hthrow).
  destruct Hcase as [[_ Hs]|(e & -> & Hs)]; rewrite Hs in Hreg |- *; simpl in Hreg |- *.
  - destruct (Hst k Hreg) as (Hti & Hde & conf & Hc & He).
    split; [eauto|]. split; [done|]. split; [done|]. split.
    + intros Hp Ha Hall. unfold txStatus. simpl in Hbs, Hb, Hap.
      rewrite Hbs, Hp, Hb, Hap, Ha, Hall. simpl. eauto.
    + intros s' n v acct Hn Hacc. by apply (settle_confirmed_view theme s' n v k acct).
  - exfalso. rewrite (Hthrow e eq_refl) in Hreg. simpl in Hreg.
    apply (f_equal length) in Hreg. rewrite length_app in Hreg. simpl in Hreg. lia.
Qed.

(** The happy path: spinner, then the success panel with the same link. *)
Lemma pending_and_success_show_the_same_link_witness :
  statusDescription (comp (fst (step (Invoke_bridge happy_env) (init happy_stores 0))))
  = T "bridge.actions.bridge.tx.message" [("url", "https://scan/tx/0xBRIDGE")]
  /\ (txStatus "dark" (fst (run [Invoke_bridge happy_env; Settle 0 (inr true)]
                                (init happy_stores 0))))
     = Some {| visual := IconOf "success-dark";
               heading := T "bridge.actions.bridge.success.title" [];
               body := T "bridge.nft.step.confirm.bridge.success.message"
                         [("url", "https://scan/tx/0xBRIDGE")] |}.
Proof.
  destruct (pending_and_success_show_the_same_link
              "dark" happy_env (init happy_stores 0) happy_closure eq_refl)
    as (_ & _ & Hde & _ & Hok).
  split; [exact Hde|].
  exact (proj1 (Hok (fst (step (Invoke_bridge happy_env) (init happy_stores 0)))
                    0%nat true {| address := Some alice |} eq_refl eq_refl)).
Defined.

(** A rejected confirmation promise: the continuation is dropped. *)
Lemma settle_rejected theme s n k err :
  tasks s !! n = Some (ConfirmedThen k) ->
  snd (step (Settle n (inl err)) s) = [E_unhandledRejection err]
  /\ comp (fst (step (Settle n (inl err)) s)) = comp s
  /\ stores (fst (step (Settle n (inl err)) s)) = stores s
  /\ tasks (fst (step (Settle n (inl err)) s)) = delete n (tasks s)
  /\ txStatus theme (fst (step (Settle n (inl err)) s)) = txStatus theme s
  /\ actions (fst (step (Settle n (inl err)) s)) = actions s.
Proof.
  intros Ht. unfold step. rewrite Ht. simpl. done.
Qed.

(** X10. A bridge transaction that fails on chain is never reported.  When
    [bridge()] registered its confirmation and the tracker's promise is then
    rejected, the rejection passes through the [.then] of line 66 as an
    unhandled rejection: nothing is logged, forwarded to [handleBridgeError]
    or persisted, no component variable changes, [bridging] stays [true],
    the status stays as it was with the pending text and link, the view is
    the one shown before the rejection, and no continuation of this call is
    left to change that. *)
Theorem rejected_confirmation_is_silent
  (theme : string) (env : Env) (s : State) (k : Closure) (err : Error) :
  tasks (fst (step (Invoke_bridge env) s)) = tasks s ++ [ConfirmedThen k] ->
  snd (step (Settle (length (tasks s)) (inl err)) (fst (step (Invoke_bridge env) s)))
  = [E_unhandledRejection err]
  /\ comp (fst (step (Settle (length (tasks s)) (inl err))
                     (fst (step (Invoke_bridge env) s))))
     = comp (fst (step (Invoke_bridge env) s))
  /\ bridging (comp (fst (step (Invoke_bridge env) s))) = true
  /\ bridgingStatus (comp (fst (step (Invoke_bridge env) s))) = bridgingStatus (comp s)
  /\ statusDescription (comp (fst (step (Invoke_bridge env) s)))
     = T "bridge.actions.bridge.tx.message" [("url", txUrl (k_explorer k) (k_txHash k))]
  /\ tasks (fst (step (Settle (length (tasks s)) (inl err))
                      (fst (step (Invoke_bridge env) s))))
     = tasks s
  /\ txStatus theme (fst (step (Settle (length (tasks s)) (inl err))
                               (fst (step (Invoke_bridge env) s))))
     = txStatus theme (fst (step (Invoke_bridge env) s)).
Proof.
  intros Hreg.
  assert (Hn : tasks (fst (step (Invoke_bridge env) s)) !! length (tasks s)
               = Some (ConfirmedThen k))
    by (rewrite Hreg; apply list_lookup_middle; reflexivity).
  destruct (settle_rejected theme _ _ _ err Hn) as (Hfx & Hc & _ & Ht & Hv & _).
  split; [exact Hfx|]. split; [exact Hc|].
  assert (Hdel : delete (length (tasks s)) (tasks s ++ [ConfirmedThen k]) = tasks s).
  { change (tasks s ++ [ConfirmedThen k]) with (tasks s ++ ConfirmedThen k :: []).
    rewrite delete_middle. apply app_nil_r. }
  rewrite Ht, Hv, Hreg, Hdel.
  destruct (bridge_step_cases env s) as [[_ Hs]|(_ & r & s1 & fx1 & Htry & Hcase)].
  { rewrite Hs in Hreg. simpl in Hreg. apply (f_equal length) in Hreg.
    rewrite length_app in Hreg. simpl in Hreg. lia. }
  pose proof (bridge_try_status env (with_comp (set_bridging true) s)) as Hst.
  pose proof (bridge_try_frame env (with_comp (set_bridging true) s)) as Hf.
  rewrite Htry in Hst, Hf.
  destruct Hf as (_ & _ & _ & _ & Hbs & Hb & _ & _ & _ & Hthrow).
  destruct Hcase as [[_ Hs]|(e & -> & Hs)]; rewrite Hs in Hreg |- *; simpl in Hreg |- *.
  - destruct (Hst k Hreg) as (_ & Hde & _). simpl in Hbs, Hb. by repeat split.
  - exfalso. rewrite (Hthrow e eq_refl) in Hreg. simpl in Hreg.
    apply (f_equal length) in Hreg. rewrite length_app in Hreg. simpl in Hreg. lia.
Qed.

(** The happy path, with the transaction failing on chain. *)
Lemma rejected_confirmation_is_silent_witness :
  snd (step (Settle 0 (inl (Upstream "reverted")))
            (fst (step (Invoke_bridge happy_env) (init happy_stores 0))))
  = [E_unhandledRejection (Upstream "reverted")]
  /\ bridging (comp (fst (step (Invoke_bridge happy_env) (init happy_stores 0)))) = true.
Proof.
  destruct (rejected_confirmation_is_silent
              "dark" happy_env (init happy_stores 0) happy_closure
              (Upstream "reverted") eq_refl)
    as (Hfx & _ & Hb & _).
  split; [exact Hfx|exact Hb].
Defined.

(** X11. When the confirmation arrives while the account store is undefined,
    the continuation stops half way: [bridgingStatus] is already [done] and
    the success text set, but reading [$account.address] throws, so
    [bridging] is not cleared, no record is persisted, and the error is an
    unhandled rejection.  The view shows success although nothing was
    stored. *)
Theorem confirmation_without_account_stops_half_way
  (theme : string) (s : State) (n : nat) (v : bool) (k : Closure) :
  tasks s !! n = Some (ConfirmedThen k) ->
  account (stores s) = None ->
  bridgingStatus (comp (fst (step (Settle n (inr v)) s))) = done
  /\ bridging (comp (fst (step (Settle n (inr v)) s))) = bridging (comp s)
  /\ persisted (snd (step (Settle n (inr v)) s)) = []
  /\ snd (step (Settle n (inr v)) s) = [E_unhandledRejection (TypeError "$account")]
  /\ tasks (fst (step (Settle n (inr v)) s)) = delete n (tasks s)
  /\ (exists p,
        txStatus theme (fst (step (Settle n (inr v)) s)) = Some p
        /\ visual p = IconOf (iconType "success" theme)
        /\ heading p = T "bridge.actions.bridge.success.title" [])
  /\ actions (fst (step (Settle n (inr v)) s)) = false.
Proof.
  intros Ht Ha. unfold step. rewrite Ht. unfold job, continuation.
  unfold_m. simpl. rewrite Ha. simpl. repeat split; try done. eauto.
Qed.

(** The account store is cleared between submission and confirmation. *)
Lemma confirmation_without_account_stops_half_way_witness :
  bridging (comp (fst (run [Invoke_bridge happy_env;
                            StoresChange (without_account happy_stores);
                            Settle 0 (inr true)]
                           (init happy_stores 0)))) = true
  /\ bridgingStatus (comp (fst (run [Invoke_bridge happy_env;
                                     StoresChange (without_account happy_stores);
                                     Settle 0 (inr true)]
                                    (init happy_stores 0)))) = done.
Proof.
  destruct (confirmation_without_account_stops_half_way
              "dark"
              (fst (run [Invoke_bridge happy_env;
                         StoresChange (without_account happy_stores)]
                        (init happy_stores 0)))
              0 true happy_closure eq_refl eq_refl)
    as (Hd & Hb & _).
  split; [exact Hb|exact Hd].
Defined.


(** X17. A [bridge()] call that succeeds (a hash [h] was obtained from the
    bridge service, the handler could resolve the chain ids and the sender,
    and the call logged no error) hands [h] to the pending-transaction
    tracker and leaves one continuation [k] outstanding; it persists nothing
    itself.  No turn of the event loop other than the fulfilment of a
    confirmation promise appends to the history store; the fulfilment of
    this call's promise, when the account store is defined at that moment,
    appends exactly one record, for [h], and uses the continuation up; and
    along any run of a freshly mounted component the records never outnumber
    the submitted bridge transactions. *)
Theorem record_persisted_once_after_confirmation
  (env : Env) (s : State) (service : BridgeService) (args : BridgeArgs) (h : Hash) :
  In (E_bridge service args) (snd (step (Invoke_bridge env) s)) ->
  bridgeService_bridge env service args = inr (Some h) ->
  truthy h = true ->
  unresolvable (stores (fst (step (Invoke_bridge env) s))) = false ->
  logged (snd (step (Invoke_bridge env) s)) = [] ->
  exists k,
    k_txHash k = h
    /\ tasks (fst (step (Invoke_bridge env) s)) = tasks s ++ [ConfirmedThen k]
    /\ In (E_pendingTransactions_add (Some h) (k_currentChain k))
          (snd (step (Invoke_bridge env) s))
    /\ persisted (snd (step (Invoke_bridge env) s)) = []
    /\ (forall e s',
          persisted (snd (step e s')) <> [] ->
          exists n v k', e = Settle n (inr v) /\ tasks s' !! n = Some (ConfirmedThen k'))
    /\ (forall s' n v acct,
          tasks s' !! n = Some (ConfirmedThen k) ->
          account (stores s') = Some acct ->
          exists tx,
            persisted (snd (step (Settle n (inr v)) s')) = [(k_userAccount k, tx)]
            /\ hash tx = h
            /\ tasks (fst (step (Settle n (inr v)) s')) = delete n (tasks s'))
    /\ (forall evs st time,
          (length (persisted (snd (run evs (init st time))))
           <= length (bridged (snd (run evs (init st time)))))%nat).
Proof.
  intros Hin Hsvc Hh Hun Hlog.
  assert (exists s1 fx1,
             step (Invoke_bridge env) s = (s1, fx1)
             /\ bridge_try env (with_comp (set_bridging true) s) = (Normal tt, s1, fx1))
    as (s1 & fx1 & Hstep & Htry).
  { revert Hin Hlog. simpl. unfold job, bridge, bind, read, update, try_catch, ret. simpl.
    destruct (bridge_absent (stores s)); simpl; [done|].
    destruct (bridge_try env _) as [[r s1] fx1].
    destruct r as [[]|e]; simpl; [eauto|].
    unfold bridge_catch, bind, update, emit. simpl.
    intros _ Hlog. exfalso. rewrite logged_app in Hlog. simpl in Hlog.
    by destruct (logged fx1). }
  rewrite Hstep in Hin, Hun |- *. cbn [fst snd] in Hin, Hun |- *.
  pose proof (bridge_try_registers env (with_comp (set_bridging true) s) service args h) as Hr.
  pose proof (bridge_try_frame env (with_comp (set_bridging true) s)) as Hf.
  rewrite Htry in Hr, Hf.
  destruct (Hr Hin Hsvc Hh Hun eq_refl) as (k & Hk & Ht).
  destruct Hf as (Hp & _ & _ & _ & _ & _ & _ & _ & Hreg & _).
  simpl in Ht.
  exists k. split; [done|]. split; [done|]. split.
  { destruct Hreg as [Hsame|(k' & sv & ar & _ & Ht' & _ & _ & _ & _ & _ & _ & Hadd)].
    - rewrite Hsame in Ht. simpl in Ht. apply (f_equal length) in Ht.
      rewrite length_app in Ht. simpl in Ht. lia.
    - rewrite Ht' in Ht. simpl in Ht. apply app_inv_head in Ht. injection Ht as ->.
      by rewrite Hk in Hadd. }
  split; [done|]. split; [|split].
  - intros e s' Hne. pose proof (step_frame e s') as Hs.
    destruct (step e s') as [s2 fx2]. destruct Hs as (_ & _ & [Hs|Hs] & _); [done|].
    exact Hs.
  - intros s' n v acct Hn Ha.
    destruct (settle_confirmed s' n v k acct Hn Ha) as (s2 & Hset & _ & _ & Ht2 & _).
    rewrite Hset. simpl.
    eexists. split; [reflexivity|]. split; [exact Hk|done].
  - intros evs st time. pose proof (run_bound evs (init st time)) as Hb'.
    simpl in Hb'. lia.
Qed.

(** The happy path is such a call. *)
Lemma record_persisted_once_after_confirmation_witness :
  exists k,
    k_txHash k = "0xBRIDGE"
    /\ tasks (fst (step (Invoke_bridge happy_env) (init happy_stores 0)))
       = tasks (init happy_stores 0) ++ [ConfirmedThen k]
    /\ persisted (snd (step (Invoke_bridge happy_env) (init happy_stores 0))) = [].
Proof.
  assert (Hin : In (E_bridge {| serviceOf := ERC721 |}
                      {| bridgeArgs := "bundle"; b_tokenIds := [42] |})
                   (snd (step (Invoke_bridge happy_env) (init happy_stores 0))))
    by (vm_compute; repeat (first [left; reflexivity | right])).
  destruct (record_persisted_once_after_confirmation
              happy_env (init happy_stores 0)
              {| serviceOf := ERC721 |}
              {| bridgeArgs := "bundle"; b_tokenIds := [42] |}
              "0xBRIDGE" Hin eq_refl eq_refl eq_refl eq_refl)
    as (k & Hk & Ht & _ & Hp & _).
  exists k. split; [exact Hk|]. split; [exact Ht|exact Hp].
Defined.

(** ** [approve] *)

(** How a turn that invokes [approve] ends. *)
Lemma approve_step_cases env s :
  exists r s1 fx1,
    approve_try env (with_tasks (fun ts => ts ++ [PausedThen]) s) = (r, s1, fx1)
    /\ (r = Normal tt
        /\ step (Invoke_approve env) s = (s1, E_isBridgePaused :: fx1)
        \/ exists e,
             r = Throw e
             /\ step (Invoke_approve env) s
                = (s1, E_isBridgePaused :: fx1
                       ++ [E_consoleError e; E_handleBridgeError e])).
Proof.
  simpl. unfold job, approve, bind, emit, attach, try_catch. simpl.
  destruct (approve_try env _) as [[r s1] fx1].
  eexists _, _, _. split; [reflexivity|].
  destruct r as [[]|e]; simpl; [by left|]. right. exists e. split; [done|].
  unfold approve_catch, bind, emit. simpl. reflexivity.
Qed.

(** The success toast closes a run of [approve_try] in which the approval
    was submitted, confirmed and the approval status refreshed. *)
Lemma approve_try_success env s :
  match approve_try env s with
  | (r, s1, fx1) =>
      forall title message,
        In (E_successToast title message) fx1 ->
        r = Normal tt
        /\ exists pre mid ty args h c token,
             fx1 = pre ++ E_approve ty args
                       :: mid ++ [E_pendingTransactions_add h c;
                                  E_getTokenApprovalStatus token;
                                  E_successToast title message]
             /\ bridges_approve env ty args = inr h
             /\ approvalConfirmed env h c = inr tt
             /\ getTokenApprovalStatus env token = inr tt
             /\ approveTxHash (comp s1) = h
  end.
Proof.
  exec_goal; intros title message Hin; simpl in Hin.
  all: split_effects; simplify_eq.
  all: repeat match goal with u : unit |- _ => destruct u end.
  all: split; [reflexivity|].
  all: solve [ (eexists [_; _] + eexists [_; _; _]);
               (eexists [] + eexists [_]);
               eexists _, _, _, _, _; split; [simpl; reflexivity|];
               simpl; repeat split; first [eassumption | reflexivity] ].
Qed.

(** X12. [approve()] announces success only as the last thing it does, and
    only after the approval was submitted, the tracker confirmed the hash the
    service returned, and the approval status was refreshed, in this order;
    no error was reported then, and [approveTxHash] holds that hash. *)
Theorem approve_success_comes_last
  (env : Env) (s : State) (title message : Text) :
  In (E_successToast title message) (snd (step (Invoke_approve env) s)) ->
  logged (snd (step (Invoke_approve env) s)) = []
  /\ handled (snd (step (Invoke_approve env) s)) = []
  /\ exists pre mid ty args h c token,
       snd (step (Invoke_approve env) s)
       = pre ++ E_approve ty args
             :: mid ++ [E_pendingTransactions_add h c;
                        E_getTokenApprovalStatus token;
                        E_successToast title message]
       /\ bridges_approve env ty args = inr h
       /\ approvalConfirmed env h c = inr tt
       /\ getTokenApprovalStatus env token = inr tt
       /\ approveTxHash (comp (fst (step (Invoke_approve env) s))) = h.
Proof.
  intros Hin.
  destruct (approve_step_cases env s) as (r & s1 & fx1 & Htry & Hcase).
  pose proof (approve_try_success env (with_tasks (fun ts => ts ++ [PausedThen]) s)) as Hs.
  pose proof (approve_try_frame env (with_tasks (fun ts => ts ++ [PausedThen]) s)) as Hf.
  rewrite Htry in Hs, Hf. destruct Hf as (_ & Hl & Hh & _).
  destruct Hcase as [[_ Hstep]|(e & -> & Hstep)];
    rewrite Hstep in Hin |- *; simpl in Hin |- *.
  - destruct Hin as [Hin|Hin]; [discriminate|].
    destruct (Hs title message Hin)
      as (_ & pre & mid & ty & args & h & c & token & -> & H1 & H2 & H3 & H4).
    split; [done|]. split; [done|].
    exists (E_isBridgePaused :: pre), mid, ty, args, h, c, token. by repeat split.
  - exfalso. destruct Hin as [Hin|Hin]; [discriminate|].
    apply in_app_or in Hin as [Hin|Hin]; [|simpl in Hin; intuition discriminate].
    by destruct (Hs title message Hin) as [? _].
Qed.

(** The happy path ends with the success toast. *)
Lemma approve_success_comes_last_witness :
  logged (snd (step (Invoke_approve happy_env) (init happy_stores 0))) = []
  /\ approveTxHash (comp (fst (step (Invoke_approve happy_env) (init happy_stores 0))))
     = Some "0xAPPROVE".
Proof.
  assert (Hin : In (E_successToast
                      (T "bridge.actions.approve.success.title" [])
                      (T "bridge.actions.approve.success.message" [("token", "APE")]))
                   (snd (step (Invoke_approve happy_env) (init happy_stores 0))))
    by (vm_compute; repeat (first [left; reflexivity | right])).
  destruct (approve_success_comes_last happy_env (init happy_stores 0) _ _ Hin)
    as (Hl & _ & pre & mid & ty & args & h & c & token & _ & Hs & _ & _ & Hh).
  split; [exact Hl|]. rewrite Hh. symmetry.
  simpl in Hs. by injection Hs.
Defined.

(** X13. Neither entry point ever rejects, and each reports at most one
    error per call: either nothing is logged or forwarded, or the call ends
    with [console.error] of one error followed by [handleBridgeError] of the
    same error, and nothing was logged or forwarded before. *)
Theorem errors_are_reported_once_and_last (env : Env) (s : State) :
  (fst (fst (approve env s)) = Normal tt
   /\ unhandled (snd (step (Invoke_approve env) s)) = []
   /\ (logged (snd (step (Invoke_approve env) s)) = []
       /\ handled (snd (step (Invoke_approve env) s)) = []
       \/ exists e pre,
            snd (step (Invoke_approve env) s)
            = pre ++ [E_consoleError e; E_handleBridgeError e]
            /\ logged pre = [] /\ handled pre = []))
  /\ (fst (fst (bridge env s)) = Normal tt
      /\ unhandled (snd (step (Invoke_bridge env) s)) = []
      /\ (logged (snd (step (Invoke_bridge env) s)) = []
          /\ handled (snd (step (Invoke_bridge env) s)) = []
          \/ exists e pre,
               snd (step (Invoke_bridge env) s)
               = pre ++ [E_consoleError e; E_handleBridgeError e]
               /\ logged pre = [] /\ handled pre = []
               /\ bridging (comp (fst (step (Invoke_bridge env) s))) = false)).
Proof.
  split.
  - destruct (approve_frame env s) as (s0 & fx0 & Heq & _). rewrite Heq.
    split; [done|].
    destruct (approve_step_cases env s) as (r & s1 & fx1 & Htry & Hcase).
    pose proof (approve_try_frame env (with_tasks (fun ts => ts ++ [PausedThen]) s)) as Hf.
    rewrite Htry in Hf. destruct Hf as (_ & Hl & Hh & Hu & _).
    destruct Hcase as [[_ ->]|(e & _ & ->)]; simpl.
    + split; [done|]. by left.
    + rewrite unhandled_app, Hu. split; [done|]. right.
      exists e, (E_isBridgePaused :: fx1). by repeat split.
  - destruct (bridge_frame env s) as (s0 & fx0 & Heq & _). rewrite Heq.
    split; [done|].
    destruct (bridge_step_cases env s) as [[_ ->]|(_ & r & s1 & fx1 & Htry & Hcase)].
    { simpl. split; [done|]. by left. }
    pose proof (bridge_try_frame env (with_comp (set_bridging true) s)) as Hf.
    rewrite Htry in Hf. destruct Hf as (_ & Hl & Hh & Hu & _).
    destruct Hcase as [[_ ->]|(e & _ & ->)]; simpl.
    + split; [done|]. by left.
    + rewrite unhandled_app, Hu. split; [done|]. right.
      exists e, fx1. by repeat split.
Qed.

(** One turn leaves [approving] alone. *)
Lemma step_approving e s :
  approving (comp (fst (step e s))) = approving (comp s).
Proof.
  destruct e as [env|env|n o|st|d]; simpl; try done.
  - destruct (approve_frame env s)
      as (s1 & fx1 & Heq & _ & _ & _ & _ & _ & _ & Ha & _).
    unfold job. by rewrite Heq.
  - destruct (bridge_frame env s) as (s1 & fx1 & Heq & _ & _ & _ & _ & Ha & _).
    unfold job. by rewrite Heq.
  - destruct (tasks s !! n) as [t|]; [|done].
    destruct o as [err|v]; [done|]. destruct t as [|k]; simpl.
    + unfold job, onPaused, throw, ret. by destruct v.
    + unfold job. unfold_m. simpl. by destruct (account (stores s)).
Qed.

(** X14. None of the component's own code writes [approving] (the flag is
    bound to the [Actions] child, which alone sets it): along every run of
    the entry points and their continuations it keeps the value it had.  And
    [approve()] writes no component variable other than [approveTxHash]:
    [bridging], [bridgingStatus], [bridgeTxHash] and the status text are as
    before the call. *)
Theorem approving_is_never_written (evs : list Event) (s : State) :
  approving (comp (fst (run evs s))) = approving (comp s)
  /\ (forall env s',
        bridging (comp (fst (step (Invoke_approve env) s'))) = bridging (comp s')
        /\ bridgingStatus (comp (fst (step (Invoke_approve env) s')))
           = bridgingStatus (comp s')
        /\ bridgeTxHash (comp (fst (step (Invoke_approve env) s')))
           = bridgeTxHash (comp s')
        /\ statusTitle (comp (fst (step (Invoke_approve env) s')))
           = statusTitle (comp s')
        /\ statusDescription (comp (fst (step (Invoke_approve env) s')))
           = statusDescription (comp s')).
Proof.
  split.
  - revert s. induction evs as [|e evs IH]; intros s; simpl; [done|].
    pose proof (step_approving e s) as H1.
    destruct (step e s) as [s1 fx1]. simpl in H1.
    specialize (IH s1). destruct (run evs s1) as [s2 fx2]. simpl in *. congruence.
  - intros env s'.
    destruct (approve_frame env s')
      as (s1 & fx1 & Heq & _ & _ & _ & _ & H1 & H2 & _ & H3 & H4 & H5 & _).
    assert (Hstep : step (Invoke_approve env) s' = (s1, fx1))
      by (simpl; unfold job; by rewrite Heq).
    rewrite Hstep. simpl. done.
Qed.


(** The approval [approve] submits, in a quiet environment. *)
Lemma approve_args_run (env : Env) (s : State) :
  quiet env ->
  match approve env s with
  | (r, s1, fx1) =>
      forall ty args,
        In (E_approve ty args) fx1 ->
        tokenIds args
        = (map (fun nft => BigInt (tokenId nft)) <$> selectedNFTs (stores s))
        /\ truthy (tokenAddress args) = true
        /\ exists token net,
             selectedToken (stores s) = Some token
             /\ network (stores s) = Some net
             /\ getConnectedWallet env (id net) = inr (wallet args)
             /\ (getAddress env (Token.addresses token !! id net)
                 = inr (Some (tokenAddress args))
                 \/ exists a dest,
                      getAddress env (Token.addresses token !! id net) = inr a
                      /\ truthy a = false
                      /\ destNetwork (stores s) = Some dest
                      /\ getCrossChainAddress env (Some token) (id net) (id dest)
                         = inr (Some (tokenAddress args)))
  end.
Proof.
  intros Hq.
  unfold approve. unfold bind at 1 2, emit at 1, attach at 1, try_catch. simpl.
  exec_quiet Hq.
  all: intros ty args Hin; simpl in Hin.
  all: split_effects; simplify_eq; simpl.
  all: split; [reflexivity|]; split; [reflexivity|].
  all: eexists _, _; split; [reflexivity|]; split; [reflexivity|];
         split; [eassumption|].
  all: first [ left; eassumption
             | right; eexists _, _; split; [eassumption|]; split; [reflexivity|];
               split; [reflexivity|]; eassumption ].
Qed.

(** X15. In a quiet environment the approval handed to the bridge service
    carries the token ids of the selection, in its order, as bigints (and
    [null] when nothing is selected: unlike [bridge], [approve] does not
    check), the signing handle of the source chain, and a token address that
    is never empty: the one of line 99 when there is one, else the one the
    cross-chain resolver found. *)
Theorem approve_submits_selection_and_address
  (env : Env) (s : State) (ty : TokenType) (args : NFTApproveArgs) :
  quiet env ->
  In (E_approve ty args) (snd (step (Invoke_approve env) s)) ->
  tokenIds args = (map (fun nft => BigInt (tokenId nft)) <$> selectedNFTs (stores s))
  /\ truthy (tokenAddress args) = true
  /\ exists token net,
       selectedToken (stores s) = Some token
       /\ network (stores s) = Some net
       /\ getConnectedWallet env (id net) = inr (wallet args)
       /\ (getAddress env (Token.addresses token !! id net)
           = inr (Some (tokenAddress args))
           \/ exists a dest,
                getAddress env (Token.addresses token !! id net) = inr a
                /\ truthy a = false
                /\ destNetwork (stores s) = Some dest
                /\ getCrossChainAddress env (Some token) (id net) (id dest)
                   = inr (Some (tokenAddress args))).
Proof.
  intros Hq Hin.
  pose proof (approve_args_run env s Hq) as H.
  destruct (approve_frame env s) as (s1 & fx1 & Heq & _).
  assert (Hstep : step (Invoke_approve env) s = (s1, fx1))
    by (simpl; unfold job; by rewrite Heq).
  rewrite Heq in H. rewrite Hstep in Hin. exact (H ty args Hin).
Qed.

(** Without a selection the approval is submitted with no token ids. *)
Lemma approve_submits_selection_and_address_witness :
  exists token net,
    selectedToken (stores (init (stores_of ERC721 None) 0)) = Some token
    /\ network (stores (init (stores_of ERC721 None) 0)) = Some net
    /\ getConnectedWallet happy_env (id net) = inr "wallet".
Proof.
  assert (Hin : In (E_approve ERC721
                      {| tokenIds := None; tokenAddress := "0x1234567890123456789012345678901234567890";
                         spenderAddress := "0xVault721"; wallet := "wallet" |})
                   (snd (step (Invoke_approve happy_env)
                              (init (stores_of ERC721 None) 0))))
    by (vm_compute; repeat (first [left; reflexivity | right])).
  destruct (approve_submits_selection_and_address
              happy_env (init (stores_of ERC721 None) 0) _ _ happy_env_quiet Hin)
    as (_ & _ & token & net & Ht & Hn & Hw & _).
  exists token, net. split; [exact Ht|]. split; [exact Hn|exact Hw].
Defined.

(** The information toast of [approve], in a quiet environment. *)
Lemma approve_info_toast_run (env : Env) (s : State) :
  quiet env ->
  match approve env s with
  | (r, s1, fx1) =>
      forall title message,
        In (E_infoToast title message) fx1 ->
        exists h token net conf,
          approveTxHash (comp s1) = Some h
          /\ truthy h = true
          /\ selectedToken (stores s) = Some token
          /\ network (stores s) = Some net
          /\ chainConfig env !! id net = Some conf
          /\ In (E_pendingTransactions_add (Some h) (id net)) fx1
          /\ title = T "bridge.actions.approve.tx.title" []
          /\ message = T "bridge.actions.approve.tx.message"
                         [("token", Token.symbol token);
                          ("url", txUrl (explorer conf) h)]
  end.
Proof.
  intros Hq.
  unfold approve. unfold bind at 1 2, emit at 1, attach at 1, try_catch. simpl.
  exec_quiet Hq.
  all: intros title message Hin; simpl in Hin.
  all: split_effects; simplify_eq; simpl.
  all: eexists _, _, _, _; split; [reflexivity|]; split; [reflexivity|];
         split; [reflexivity|]; split; [reflexivity|]; split; [eassumption|].
  all: split; [|split; reflexivity].
  all: repeat (first [left; reflexivity | right]).
Qed.

(** X16. In a quiet environment [approve()] shows the information toast only
    for a non-empty approval hash; the toast names the token's symbol and the
    link [<explorer of the source chain>/tx/<hash>], the hash is the one kept
    in [approveTxHash], and it is this hash on the source chain that the
    tracker is then asked to confirm. *)
Theorem approve_info_toast_links_the_approval
  (env : Env) (s : State) (title message : Text) :
  quiet env ->
  In (E_infoToast title message) (snd (step (Invoke_approve env) s)) ->
  exists h token net conf,
    approveTxHash (comp (fst (step (Invoke_approve env) s))) = Some h
    /\ truthy h = true
    /\ selectedToken (stores s) = Some token
    /\ network (stores s) = Some net
    /\ chainConfig env !! id net = Some conf
    /\ In (E_pendingTransactions_add (Some h) (id net))
          (snd (step (Invoke_approve env) s))
    /\ title = T "bridge.actions.approve.tx.title" []
    /\ message = T "bridge.actions.approve.tx.message"
                   [("token", Token.symbol token); ("url", txUrl (explorer conf) h)].
Proof.
  intros Hq Hin.
  pose proof (approve_info_toast_run env s Hq) as H.
  destruct (approve_frame env s) as (s1 & fx1 & Heq & _).
  assert (Hstep : step (Invoke_approve env) s = (s1, fx1))
    by (simpl; unfold job; by rewrite Heq).
  rewrite Heq in H. rewrite Hstep in Hin |- *. exact (H title message Hin).
Qed.

(** The toast of the happy path. *)
Lemma approve_info_toast_links_the_approval_witness :
  exists h,
    approveTxHash (comp (fst (step (Invoke_approve happy_env) (init happy_stores 0))))
    = Some h
    /\ truthy h = true.
Proof.
  assert (Hin : In (E_infoToast
                      (T "bridge.actions.approve.tx.title" [])
                      (T "bridge.actions.approve.tx.message"
                         [("token", "APE"); ("url", "https://scan/tx/0xAPPROVE")]))
                   (snd (step (Invoke_approve happy_env) (init happy_stores 0))))
    by (vm_compute; repeat (first [left; reflexivity | right])).
  destruct (approve_info_toast_links_the_approval
              happy_env (init happy_stores 0) _ _ happy_env_quiet Hin)
    as (h & token & net & conf & Hh & Ht & _).
  exists h. split; [exact Hh|exact Ht].
Defined.

(** With a [getAddress] that never returns a falsy value, the [try] block
    never enters the fallback of lines 101-109. *)
Lemma approve_try_direct env s :
  (forall a r, getAddress env a = inr r -> truthy r = true) ->
  match approve_try env s with
  | (r, s1, fx1) =>
      (forall token src dst, ~ In (E_getCrossChainAddress token src dst) fx1)
      /\ (forall ty args,
            In (E_approve ty args) fx1 ->
            exists a,
              In (E_getAddress a) fx1
              /\ getAddress env a = inr (Some (tokenAddress args)))
  end.
Proof.
  intros Hviem.
  exec_goal.
  all: try match goal with
           | H : getAddress _ _ = inr None |- _ =>
               apply Hviem in H; discriminate H
           | H : getAddress _ _ = inr (Some "") |- _ =>
               apply Hviem in H; discriminate H
           end.
  all: split; [intros token src dst Hin|intros ty args Hin]; simpl in Hin.
  all: split_effects; simplify_eq.
  all: eexists; split; [|eassumption]; simpl.
  all: repeat (first [left; reflexivity | right]).
Qed.

(** X18. With a [getAddress] that never returns a falsy value, as viem's,
    which gives a checksummed address or throws, [approve()] never asks the
    cross-chain resolver: the fallback of lines 101-109 is dead code.  Every
    approval it submits is then for the address [getAddress] returned in
    this call. *)
Theorem cross_chain_fallback_is_never_reached (env : Env) (s : State) :
  (forall a r, getAddress env a = inr r -> truthy r = true) ->
  (forall token src dst,
      ~ In (E_getCrossChainAddress token src dst) (snd (step (Invoke_approve env) s)))
  /\ (forall ty args,
        In (E_approve ty args) (snd (step (Invoke_approve env) s)) ->
        exists a,
          In (E_getAddress a) (snd (step (Invoke_approve env) s))
          /\ getAddress env a = inr (Some (tokenAddress args))).
Proof.
  intros Hviem.
  destruct (approve_step_cases env s) as (r & s1 & fx1 & Htry & Hcase).
  pose proof (approve_try_direct env (with_tasks (fun ts => ts ++ [PausedThen]) s) Hviem)
    as Hd.
  rewrite Htry in Hd. destruct Hd as [Hno Haddr].
  destruct Hcase as [[_ ->]|(e & _ & ->)]; cbn [fst snd]; split.
  - intros token src dst [Hin|Hin]; [discriminate|]. by eapply Hno.
  - intros ty args [Hin|Hin]; [discriminate|].
    destruct (Haddr ty args Hin) as (a & Ha & Hg).
    exists a. split; [by right|done].
  - intros token src dst [Hin|Hin]; [discriminate|].
    apply in_app_or in Hin as [Hin|Hin]; [by eapply Hno|].
    simpl in Hin. intuition discriminate.
  - intros ty args [Hin|Hin]; [discriminate|].
    apply in_app_or in Hin as [Hin|Hin]; [|simpl in Hin; intuition discriminate].
    destruct (Haddr ty args Hin) as (a & Ha & Hg).
    exists a. split; [|done]. right. apply in_or_app. by left.
Qed.

(** [getAddress_viem] never returns a falsy value. *)
Lemma getAddress_viem_truthy a r :
  getAddress_viem a = inr r -> truthy r = true.
Proof.
  unfold getAddress_viem. destruct a as [x|]; [|discriminate].
  destruct (isAddress x) eqn:Hx; [|discriminate].
  intros [= <-]. destruct x as [|c x]; [discriminate Hx|reflexivity].
Defined.

(** On the happy path the resolver is not asked. *)
Lemma cross_chain_fallback_is_never_reached_witness :
  forallb (fun e => match e with E_getCrossChainAddress _ _ _ => false | _ => true end)
          (snd (step (Invoke_approve happy_env) (init happy_stores 0))) = true
  /\ ~ In (E_getCrossChainAddress (Some (token_of ERC721)) 1 10)
          (snd (step (Invoke_approve happy_env) (init happy_stores 0))).
Proof.
  split; [vm_compute; reflexivity|].
  exact (proj1 (cross_chain_fallback_is_never_reached
                  happy_env (init happy_stores 0) getAddress_viem_truthy)
               (Some (token_of ERC721)) 1 10).
Defined.
